(** * pg_quota: the shared quota table and the two enforcement hooks

    A shallow embedding of [fs_model.c] and of the two variants of
    [enforcement.c], followed by the properties of the store and of the
    enforcement decision.

    Conventions of the embedding.
    - [Oid] is an unsigned integer ([N]); [off_t] and [int64] are both signed
      64-bit integers and are kept as [Z].  The code only stores, compares and
      copies them, so no wrap-around can occur.
    - The shared hash table (PostgreSQL's dynahash, [utils/hsearch.h]) is a
      finite map from the key struct to the bytes that follow the key in a
      [RelationSizeEntry]; a pointer to an entry is the entry's key.
    - Global variables of the C files are the fields of [backend]; every C
      function that touches them is a computation in the monad [M].
    - [ereport(ERROR, ...)] does not return: it is the outcome [Raised], and
      the transaction abort that handles it releases every lightweight lock
      the backend holds.  Dereferencing a NULL global is the outcome
      [Segfault]. *)

From stdpp Require Import gmap list fin_maps strings.
From Stdlib Require Import ZArith.

(** ** Data of fs_model.c *)

Abbreviation Oid := N (only parsing).

Definition InvalidOid : Oid := 0%N.

Definition MAX_DB_ROLE_ENTRIES : nat := 1024.

(** hash key consists of relation and database OID *)
Record RelationSizeEntryKey := mkKey {
  relid : Oid;
  dbid : Oid
}.

#[global] Instance RelationSizeEntryKey_eq_dec : EqDecision RelationSizeEntryKey.
Proof. solve_decision. Defined.

#[global] Instance RelationSizeEntryKey_countable : Countable RelationSizeEntryKey.
Proof.
  refine (inj_countable' (λ k, (relid k, dbid k)) (λ p, mkKey p.1 p.2) _).
  by intros [].
Defined.

Record RelationSizeEntry := mkEntry {
  key : RelationSizeEntryKey;
  totalsize : Z;   (* current total space usage *)
  quota : Z        (* quota from config table *)
}.

(** ** The dynahash table

    [ht_elems] maps a key to the pair (totalsize, quota) stored behind it.
    [ht_max_size] is the number of elements the table can hold: the shared
    segment is sized by [pg_quota_memsize] for [MAX_DB_ROLE_ENTRIES] elements
    and the table is created with that many; shared memory that other
    subsystems may have left over is not part of the model. *)
Record HTAB := mkHTAB {
  ht_elems : gmap RelationSizeEntryKey (Z * Z);
  ht_max_size : nat
}.

Definition entry_of (k : RelationSizeEntryKey) (d : Z * Z) : RelationSizeEntry :=
  {| key := k; totalsize := d.1; quota := d.2 |}.

(** hash_search(hashp, key, HASH_FIND, NULL) *)
Definition hash_find (hashp : HTAB) (k : RelationSizeEntryKey) : option RelationSizeEntry :=
  entry_of k <$> ht_elems hashp !! k.

(** hash_search(hashp, key, HASH_ENTER, &found): the entry of an existing key
    is returned as it is; a new key takes a free element, whose fields behind
    the key are not initialised (zero here; both callers' fields are assigned
    right after); with no free element dynahash reports "out of shared
    memory", which is [None]. *)
Definition hash_enter (hashp : HTAB) (k : RelationSizeEntryKey) : option (HTAB * bool) :=
  match ht_elems hashp !! k with
  | Some _ => Some (hashp, true)
  | None =>
      if decide (size (ht_elems hashp) < ht_max_size hashp)
      then Some (mkHTAB (<[k := (0%Z, 0%Z)]> (ht_elems hashp)) (ht_max_size hashp), false)
      else None
  end.

(** hash_search(hashp, key, HASH_REMOVE, NULL) *)
Definition hash_remove (hashp : HTAB) (k : RelationSizeEntryKey) : HTAB :=
  mkHTAB (delete k (ht_elems hashp)) (ht_max_size hashp).

(** hash_seq_init followed by hash_seq_search until NULL: every live entry
    once, in the table's bucket order. *)
Definition hash_seq (hashp : HTAB) : list RelationSizeEntry :=
  (λ kd, entry_of kd.1 kd.2) <$> map_to_list (ht_elems hashp).

(** relentry->quota = v and relentry->totalsize = v, through the pointer *)
Definition store_quota (k : RelationSizeEntryKey) (v : Z) (hashp : HTAB) : HTAB :=
  mkHTAB (alter (λ d, (d.1, v)) k (ht_elems hashp)) (ht_max_size hashp).

Definition store_totalsize (k : RelationSizeEntryKey) (v : Z) (hashp : HTAB) : HTAB :=
  mkHTAB (alter (λ d, (v, d.2)) k (ht_elems hashp)) (ht_max_size hashp).

(** ** Backend state and the monad of the C functions *)

Inductive LWLockMode := LW_EXCLUSIVE | LW_SHARED.

(** A lightweight lock is named by its address. *)
Abbreviation LWLock := N (only parsing).

Record pg_quota_shared_state := mkShared {
  lock : LWLock   (* protects relation_totals_map *)
}.

(** pg_class rows, as far as get_rel_owner reads them *)
Record Form_pg_class := mkClass {
  relowner : Oid
}.

Record backend := mkBackend {
  MyDatabaseId : Oid;
  shared : option pg_quota_shared_state;
  relation_totals_map : option HTAB;
  held_lwlocks : list (LWLock * LWLockMode);
  syscache_RELOID : gmap Oid Form_pg_class
}.

Inductive sqlerrcode :=
  | ERRCODE_DISK_FULL
  | ERRCODE_OUT_OF_MEMORY
  | ERRCODE_FEATURE_NOT_SUPPORTED
  | ERRCODE_INTERNAL_ERROR.

Record ErrorData := mkError {
  errcode : sqlerrcode;
  errmsg : string
}.

Inductive outcome (A : Type) :=
  | Done (a : A)
  | Raised (e : ErrorData)
  | Segfault.
Arguments Done {A} a.
Arguments Raised {A} e.
Arguments Segfault {A}.

Definition M (A : Type) : Type := backend → outcome A * backend.

#[global] Instance M_ret : MRet M := λ A a st, (Done a, st).

#[global] Instance M_bind : MBind M := λ A B f m st,
  match m st with
  | (Done a, st') => f a st'
  | (Raised e, st') => (Raised e, st')
  | (Segfault, st') => (Segfault, st')
  end.

Definition with_held (h : list (LWLock * LWLockMode)) (st : backend) : backend :=
  mkBackend (MyDatabaseId st) (shared st) (relation_totals_map st) h (syscache_RELOID st).

Definition with_map (t : option HTAB) (st : backend) : backend :=
  mkBackend (MyDatabaseId st) (shared st) t (held_lwlocks st) (syscache_RELOID st).

(** ereport(ERROR, ...): control leaves the function; the abort path runs
    LWLockReleaseAll. *)
Definition ereport_ERROR {A} (code : sqlerrcode) (msg : string) : M A := λ st,
  (Raised (mkError code msg), with_held [] st).

Definition segfault {A} : M A := λ st, (Segfault, st).

(** shared->lock *)
Definition shared_lock : M LWLock := λ st,
  match shared st with
  | Some s => (Done (lock s), st)
  | None => (Segfault, st)
  end.

Definition LWLockAcquire (l : LWLock) (mode : LWLockMode) : M unit := λ st,
  (Done (), with_held ((l, mode) :: held_lwlocks st) st).

(** Drops the newest hold on [l]. *)
Fixpoint release_hold (l : LWLock) (h : list (LWLock * LWLockMode))
  : option (list (LWLock * LWLockMode)) :=
  match h with
  | [] => None
  | (l', m) :: h' =>
      if decide (l' = l) then Some h'
      else cons (l', m) <$> release_hold l h'
  end.

Definition LWLockRelease (l : LWLock) : M unit := λ st,
  match release_hold l (held_lwlocks st) with
  | Some h => (Done (), with_held h st)
  | None => ereport_ERROR ERRCODE_INTERNAL_ERROR "lock is not held" st
  end.

Definition get_MyDatabaseId : M Oid := λ st, (Done (MyDatabaseId st), st).

Definition get_relation_totals_map : M (option HTAB) := λ st,
  (Done (relation_totals_map st), st).

(** hash_search on the global table in its three uses; the table pointer is
    dereferenced, so a NULL [relation_totals_map] faults. *)
Definition hash_search_FIND (k : RelationSizeEntryKey) : M (option RelationSizeEntry) := λ st,
  match relation_totals_map st with
  | Some t => (Done (hash_find t k), st)
  | None => (Segfault, st)
  end.

Definition hash_search_ENTER (k : RelationSizeEntryKey) : M (RelationSizeEntryKey * bool) := λ st,
  match relation_totals_map st with
  | Some t =>
      match hash_enter t k with
      | Some (t', found) => (Done (k, found), with_map (Some t') st)
      | None => ereport_ERROR ERRCODE_OUT_OF_MEMORY "out of shared memory" st
      end
  | None => (Segfault, st)
  end.

Definition hash_search_REMOVE (k : RelationSizeEntryKey) : M unit := λ st,
  match relation_totals_map st with
  | Some t => (Done (), with_map (Some (hash_remove t k)) st)
  | None => (Segfault, st)
  end.

Definition hash_seq_all : M (list RelationSizeEntry) := λ st,
  match relation_totals_map st with
  | Some t => (Done (hash_seq t), st)
  | None => (Segfault, st)
  end.

(** assignment through an entry pointer obtained from the global table *)
Definition assign (f : HTAB → HTAB) : M unit := λ st,
  match relation_totals_map st with
  | Some t => (Done (), with_map (Some (f t)) st)
  | None => (Segfault, st)
  end.

(** ** fs_model.c *)

(** Per-worker initialization: remove any old entries for this database from
    the shared memory hash table. *)
Fixpoint init_fs_model_loop (iter : list RelationSizeEntry) : M unit :=
  match iter with
  | [] => mret ()
  | relentry :: iter' =>
      db ← get_MyDatabaseId;
      (* only reset entries for current db *)
      (if decide (dbid (key relentry) = db)
       then hash_search_REMOVE (key relentry)
       else mret ());;
      init_fs_model_loop iter'
  end.

Definition init_fs_model : M unit :=
  l ← shared_lock;
  LWLockAcquire l LW_EXCLUSIVE;;
  iter ← hash_seq_all;
  init_fs_model_loop iter;;
  LWLockRelease l.

(** ShmemInitStruct / ShmemInitHash: attach to what the segment already has
    under these names ([existing]), or create it. *)
Definition ShmemInitHash (existing : option HTAB) (init_size max_size : nat) : HTAB :=
  match existing with
  | Some t => t
  | None => mkHTAB ∅ max_size
  end.

Definition pg_quota_shmem_startup (tranche : LWLock) (existing : option HTAB)
  : M unit := λ st,
  (Done (),
   mkBackend (MyDatabaseId st)
     (Some (mkShared tranche))
     (Some (ShmemInitHash existing MAX_DB_ROLE_ENTRIES MAX_DB_ROLE_ENTRIES))
     (held_lwlocks st) (syscache_RELOID st)).

(** This update the quota field and update relation size in the in-memory
    model. *)
Definition UpdateQuotaRefreshRelationSize (relid : Oid) (newquota newtotalsize : Z)
  : M unit :=
  l ← shared_lock;
  LWLockAcquire l LW_EXCLUSIVE;;
  db ← get_MyDatabaseId;
  let key := mkKey relid db in
  r ← hash_search_ENTER key;
  let relentry := r.1 in
  assign (store_quota relentry newquota);;
  assign (store_totalsize relentry newtotalsize);;
  LWLockRelease l.

(** Returns 'true', if the quota for 'relation' has not been exceeded yet. *)
Definition CheckQuota (relid : Oid) : M bool :=
  map ← get_relation_totals_map;
  match map with
  | None => mret true
  | Some _ =>
      l ← shared_lock;
      LWLockAcquire l LW_SHARED;;
      db ← get_MyDatabaseId;
      let key := mkKey relid db in
      relentry ← hash_search_FIND key;
      let result :=
        match relentry with
        | Some e =>
            if bool_decide (0 ≤ quota e)%Z && bool_decide (quota e < totalsize e)%Z
            then false   (* Relation has a quota, and it's been exceeded. *)
            else true
        | None => true
        end in
      LWLockRelease l;;
      mret result
  end.


(** *** get_quota_status: the function behind the quota.status view *)

Inductive SetFunctionReturnMode :=
  | SFRM_ValuePerCall
  | SFRM_Materialize
  | SFRM_Materialize_Random
  | SFRM_Materialize_Preferred.

(** The bit of a return mode in ReturnSetInfo.allowedModes. *)
Definition SFRM_bit (m : SetFunctionReturnMode) : Z :=
  match m with
  | SFRM_ValuePerCall => 1
  | SFRM_Materialize => 2
  | SFRM_Materialize_Random => 4
  | SFRM_Materialize_Preferred => 8
  end.

Inductive TypeFuncClass :=
  | TYPEFUNC_SCALAR
  | TYPEFUNC_COMPOSITE
  | TYPEFUNC_COMPOSITE_DOMAIN
  | TYPEFUNC_RECORD
  | TYPEFUNC_OTHER.

#[global] Instance TypeFuncClass_eq_dec : EqDecision TypeFuncClass.
Proof. solve_decision. Defined.

(** A row descriptor is the list of its column names. *)
Abbreviation TupleDesc := (list string) (only parsing).

(** What tuplestore_putvalues is given: the values[] and nulls[] arrays.  A
    Datum is kept as the integer it carries. *)
Record tuple := mkTuple {
  values : list Z;
  nulls : list bool
}.

Abbreviation Tuplestorestate := (list tuple) (only parsing).

Record ReturnSetInfo := mkReturnSetInfo {
  allowedModes : Z;
  returnMode : SetFunctionReturnMode;
  setResult : option Tuplestorestate;
  setDesc : option TupleDesc
}.

(** fcinfo->resultinfo points to some node or is NULL. *)
Inductive Node :=
  | Node_ReturnSetInfo (rsinfo : ReturnSetInfo)
  | Node_other.

(** The call context, with what get_call_result_type answers for it. *)
Record FunctionCallInfoData := mkFcinfo {
  resultinfo : option Node;
  call_result_type : TypeFuncClass * TupleDesc
}.

Definition tuplestore_putvalues (tupstore : Tuplestorestate) (t : tuple) : Tuplestorestate :=
  tupstore ++ [t].

(** The row built for one entry of the current database. *)
Definition status_row (relentry : RelationSizeEntry) : tuple :=
  let values0 := Z.of_N (relid (key relentry)) in
  let values1 := totalsize relentry in
  if decide (quota relentry ≠ (-1)%Z)
  then mkTuple [values0; values1; quota relentry] [false; false; false]
  else mkTuple [values0; values1; 0%Z] [false; false; true].

Fixpoint get_quota_status_loop (iter : list RelationSizeEntry)
    (tupstore : Tuplestorestate) : M Tuplestorestate :=
  match iter with
  | [] => mret tupstore
  | relentry :: iter' =>
      db ← get_MyDatabaseId;
      (* Ignore entries for other databases. *)
      if decide (dbid (key relentry) ≠ db)
      then get_quota_status_loop iter' tupstore
      else get_quota_status_loop iter' (tuplestore_putvalues tupstore (status_row relentry))
  end.

Definition get_quota_status (fcinfo : FunctionCallInfoData) : M ReturnSetInfo :=
  (* check to see if caller supports us returning a tuplestore *)
  match resultinfo fcinfo with
  | None | Some Node_other =>
      ereport_ERROR ERRCODE_FEATURE_NOT_SUPPORTED
        "set-valued function called in context that cannot accept a set"
  | Some (Node_ReturnSetInfo rsinfo) =>
      if decide (Z.land (allowedModes rsinfo) (SFRM_bit SFRM_Materialize) = 0%Z)
      then ereport_ERROR ERRCODE_FEATURE_NOT_SUPPORTED
             "materialize mode required, but it is not allowed in this context"
      else
        (* Build a tuple descriptor for our result type *)
        let (class, tupdesc) := call_result_type fcinfo in
        if decide (class ≠ TYPEFUNC_COMPOSITE)
        then ereport_ERROR ERRCODE_INTERNAL_ERROR "return type must be a row type"
        else
          let tupstore0 : Tuplestorestate := [] in
          map ← get_relation_totals_map;
          tupstore ←
            match map with
            | Some _ =>
                l ← shared_lock;
                LWLockAcquire l LW_SHARED;;
                iter ← hash_seq_all;
                tupstore ← get_quota_status_loop iter tupstore0;
                LWLockRelease l;;
                mret tupstore
            | None => mret tupstore0
            end;
          mret (mkReturnSetInfo (allowedModes rsinfo) SFRM_Materialize
                  (Some tupstore) (Some tupdesc))
  end.

(** ** enforcement.c, executor variant: the ExecCheckRTPerms hook *)

Inductive RTEKind :=
  | RTE_RELATION
  | RTE_SUBQUERY
  | RTE_JOIN
  | RTE_FUNCTION
  | RTE_TABLEFUNC
  | RTE_VALUES
  | RTE_CTE
  | RTE_NAMEDTUPLESTORE.

#[global] Instance RTEKind_eq_dec : EqDecision RTEKind.
Proof. solve_decision. Defined.

(** AclMode bit of INSERT (nodes/parsenodes.h). *)
Definition ACL_INSERT : Z := 1.

(** A range table entry, as far as the hook reads it. *)
Record RangeTblEntry := mkRTE {
  rtekind : RTEKind;
  rte_relid : Oid;
  requiredPerms : Z
}.

(** Permission check hook function. Throws an error if you try to INSERT (or
    COPY) into a table, and the quota has been exceeded. *)
Fixpoint quota_check_ExecCheckRTPerms (rangeTable : list RangeTblEntry)
    (ereport_on_violation : bool) : M bool :=
  match rangeTable with
  | [] => mret true
  | rte :: rest =>
      if decide (rtekind rte ≠ RTE_RELATION)
      then quota_check_ExecCheckRTPerms rest ereport_on_violation
      else
        (* Only check quota on inserts. *)
        if decide (Z.land (requiredPerms rte) ACL_INSERT = 0%Z)
        then quota_check_ExecCheckRTPerms rest ereport_on_violation
        else
          ok ← CheckQuota (rte_relid rte);
          if negb ok
          then
            (* The relation is out of quota. Report error. *)
            if ereport_on_violation
            then ereport_ERROR ERRCODE_DISK_FULL "table's disk space quota exceeded"
            else mret false
          else quota_check_ExecCheckRTPerms rest ereport_on_violation
  end.

(** ** enforcement.c, storage-manager variant: the SmgrExtend hook *)

Record RelFileNode := mkRelFileNode {
  spcNode : Oid;
  dbNode : Oid;
  relNode : Oid
}.

Record RelFileNodeBackend := mkRelFileNodeBackend {
  node : RelFileNode
}.

Record SMgrRelationData := mkSMgrRelation {
  smgr_rnode : RelFileNodeBackend
}.

Inductive ForkNumber := MAIN_FORKNUM | FSM_FORKNUM | VISIBILITYMAP_FORKNUM | INIT_FORKNUM.

(** SearchSysCache1(RELOID, relid) *)
Definition SearchSysCache1_RELOID (relid : Oid) : M (option Form_pg_class) := λ st,
  (Done (syscache_RELOID st !! relid), st).

Definition get_rel_owner (relid : Oid) : M Oid :=
  tp ← SearchSysCache1_RELOID relid;
  match tp with
  | Some reltup => mret (relowner reltup)
  | None => mret InvalidOid   (* could not find owner for relation *)
  end.

Definition quota_check_SmgrExtend (reln : SMgrRelationData) (forknum : ForkNumber)
    (blocknum : N) (buffer : list N) (skipFsync : bool) : M unit :=
  owner ← get_rel_owner (relNode (node (smgr_rnode reln)));
  if decide (owner = InvalidOid)
  then mret ()   (* no owner, huh? *)
  else
    ok ← CheckQuota owner;
    if negb ok
    then
      (* The owner is out of quota. Report error. *)
      ereport_ERROR ERRCODE_DISK_FULL "user's disk space quota exceeded"
    else mret ().


(** ** Vocabulary of the statements *)

(** The decision CheckQuota takes on what HASH_FIND returned. *)
Definition within_quota (relentry : option RelationSizeEntry) : bool :=
  match relentry with
  | Some e =>
      if bool_decide (0 ≤ quota e)%Z && bool_decide (quota e < totalsize e)%Z
      then false
      else true
  | None => true
  end.

(** A range table entry the executor hook passes to CheckQuota. *)
Definition checked_target (rte : RangeTblEntry) : Prop :=
  rtekind rte = RTE_RELATION ∧ Z.land (requiredPerms rte) ACL_INSERT ≠ 0%Z.

#[global] Instance checked_target_dec rte : Decision (checked_target rte).
Proof. unfold checked_target. apply _. Defined.

(** A call context get_quota_status accepts. *)
Definition materialize_context (fcinfo : FunctionCallInfoData)
    (rsinfo : ReturnSetInfo) (tupdesc : TupleDesc) : Prop :=
  resultinfo fcinfo = Some (Node_ReturnSetInfo rsinfo)
  ∧ Z.land (allowedModes rsinfo) (SFRM_bit SFRM_Materialize) ≠ 0%Z
  ∧ call_result_type fcinfo = (TYPEFUNC_COMPOSITE, tupdesc).

(** The rows of the entries of database [db], in scan order. *)
Definition status_rows (db : Oid) (hashp : HTAB) : list tuple :=
  status_row <$> filter (λ e, dbid (key e) = db) (hash_seq hashp).

(** The table has room for [k]: the key is there already, or an element is
    free. *)
Definition has_room (hashp : HTAB) (k : RelationSizeEntryKey) : Prop :=
  is_Some (ht_elems hashp !! k) ∨ size (ht_elems hashp) < ht_max_size hashp.

(** The static initial values of the globals: nothing attached yet. *)
Definition backend_start (db : Oid) (cat : gmap Oid Form_pg_class) : backend :=
  mkBackend db None None [] cat.

(** What the loop of init_fs_model has done to the table after the entries
    [iter] have been visited. *)
Definition reset_entries (db : Oid) (iter : list RelationSizeEntry) (hashp : HTAB) : HTAB :=
  foldl (λ t relentry,
           if decide (dbid (key relentry) = db) then hash_remove t (key relentry) else t)
        hashp iter.

(** "A denied target aborts the operation with a disk-quota-exceeded error",
    said of every way the hook can be called. *)
Definition denied_target_raises (st : backend) (rangeTable : list RangeTblEntry)
    (ereport_on_violation : bool) : Prop :=
  (∃ rte, rte ∈ rangeTable ∧ checked_target rte
          ∧ (CheckQuota (rte_relid rte) st).1 = Done false) →
  ∃ msg, (quota_check_ExecCheckRTPerms rangeTable ereport_on_violation st).1
         = Raised (mkError ERRCODE_DISK_FULL msg).

(** A small deployment used by the concrete instances below: database 5 has
    three tracked relations, database 6 has one, and the table is full. *)
Definition demo_table : HTAB :=
  mkHTAB (list_to_map
            [(mkKey 10 5, (2100000, 2000000)%Z);
             (mkKey 11 5, (7, -2)%Z);
             (mkKey 12 5, (0, -1)%Z);
             (mkKey 10 6, (4096, 4096)%Z)]) 4.

Definition demo_backend : backend :=
  mkBackend 5 (Some (mkShared 77)) (Some demo_table) []
    {[ 900%N := mkClass 10; 901%N := mkClass 12 ]}.

Definition demo_fcinfo : FunctionCallInfoData :=
  mkFcinfo (Some (Node_ReturnSetInfo (mkReturnSetInfo 3 SFRM_ValuePerCall None None)))
           (TYPEFUNC_COMPOSITE, ["relid"; "space_used"; "quota"]).

(** A backend of database 5 right after the shared segment was created. *)
Definition fresh_backend : backend :=
  (pg_quota_shmem_startup 77 None (backend_start 5 ∅)).2.

(** ** Vocabulary of the further properties *)

(** The table holds no more elements than it can. *)
Definition fits (hashp : HTAB) : Prop :=
  size (ht_elems hashp) ≤ ht_max_size hashp.

(** The table after the entry of [k] was created or replaced. *)
Definition updated (k : RelationSizeEntryKey) (newquota newtotalsize : Z)
    (hashp : HTAB) : HTAB :=
  mkHTAB (<[k := (newtotalsize, newquota)]> (ht_elems hashp)) (ht_max_size hashp).

(** The table without the entries of database [db]. *)
Definition without_db (db : Oid) (hashp : HTAB) : HTAB :=
  mkHTAB (filter (λ kd, dbid kd.1 ≠ db) (ht_elems hashp)) (ht_max_size hashp).

(** One refresh cycle of a caller: the updates (relid, newquota,
    newtotalsize) of [us], one call after the other. *)
Fixpoint refresh_all (us : list (Oid * Z * Z)) : M unit :=
  match us with
  | [] => mret ()
  | u :: us' =>
      UpdateQuotaRefreshRelationSize u.1.1 u.1.2 u.2;;
      refresh_all us'
  end.

(** All INSERT targets of the range table are within their quota, read off
    the table. *)
Definition targets_within_quota (db : Oid) (hashp : HTAB)
    (rangeTable : list RangeTblEntry) : bool :=
  forallb (λ rte, within_quota (hash_find hashp (mkKey (rte_relid rte) db)))
          (filter checked_target rangeTable).

(** *** init_quota_enforcement, in both variants of enforcement.c

    A hook variable holds a function pointer: the quota hook of the file, or
    a function of another module. *)
Inductive hook_function :=
  | quota_hook
  | other_hook (address : N).

Module ExecutorVariant.
Record hooks := mkHooks {
  ExecutorCheckPerms_hook : option hook_function;
  prev_ExecutorCheckPerms_hook : option hook_function;
  ExecutorCheckPerms_hook_installed : bool
}.

(** Initialize enforcement, by installing the executor permission hook. *)
Definition init_quota_enforcement (h : hooks) : hooks :=
  if negb (ExecutorCheckPerms_hook_installed h)
  then mkHooks (Some quota_hook) (ExecutorCheckPerms_hook h)
               (ExecutorCheckPerms_hook_installed h)
  else h.
End ExecutorVariant.

Module SmgrVariant.
Record hooks := mkHooks {
  SmgrExtend_hook : option hook_function;
  prev_SmgrExtend_hook : option hook_function;
  SmgrExtend_hook_installed : bool
}.

Definition init_quota_enforcement (h : hooks) : hooks :=
  if negb (SmgrExtend_hook_installed h)
  then mkHooks (Some quota_hook) (SmgrExtend_hook h) (SmgrExtend_hook_installed h)
  else h.
End SmgrVariant.

(** ** Stepping lemmas *)

Lemma with_held_same st : with_held (held_lwlocks st) st = st.
Proof. by destruct st. Qed.

Lemma with_map_same st t : relation_totals_map st = t → with_map t st = st.
Proof. intros <-. by destruct st. Qed.

Lemma release_hold_newest l m h : release_hold l ((l, m) :: h) = Some h.
Proof. simpl. by rewrite decide_True. Qed.

Lemma acquire_release l m st :
  (LWLockAcquire l m;; LWLockRelease l) st = (Done (), st).
Proof.
  unfold mbind, M_bind, LWLockAcquire, LWLockRelease. simpl.
  rewrite decide_True by done. by destruct st.
Qed.

Lemma hash_find_Some hashp k e :
  hash_find hashp k = Some e ↔
  ∃ d, ht_elems hashp !! k = Some d ∧ e = entry_of k d.
Proof.
  unfold hash_find. destruct (ht_elems hashp !! k) as [d|]; simpl; split.
  - intros [= <-]. eauto.
  - intros (d' & [= <-] & ->). done.
  - done.
  - by intros (? & ? & _).
Qed.

Lemma hash_find_None hashp k :
  hash_find hashp k = None ↔ ht_elems hashp !! k = None.
Proof. unfold hash_find. by destruct (ht_elems hashp !! k). Qed.

Lemma hash_find_key hashp k e : hash_find hashp k = Some e → key e = k.
Proof. intros (d & _ & ->)%hash_find_Some. done. Qed.

Lemma elem_of_hash_seq hashp e :
  e ∈ hash_seq hashp ↔ hash_find hashp (key e) = Some e.
Proof.
  unfold hash_seq. rewrite list_elem_of_fmap. split.
  - intros ([k d] & -> & Hin). apply elem_of_map_to_list in Hin.
    apply hash_find_Some. exists d. done.
  - intros (d & Hd & He)%hash_find_Some. exists (key e, d). split; [done|].
    by apply elem_of_map_to_list.
Qed.

Lemma CheckQuota_eval relid st :
  CheckQuota relid st =
  (match relation_totals_map st with
   | None => Done true
   | Some t =>
       match shared st with
       | None => Segfault
       | Some _ => Done (within_quota (hash_find t (mkKey relid (MyDatabaseId st))))
       end
   end, st).
Proof.
  unfold CheckQuota, mbind, M_bind, get_relation_totals_map.
  destruct (relation_totals_map st) as [t|] eqn:Hm; [|done].
  unfold shared_lock. destruct (shared st) as [s|] eqn:Hs; [|done].
  unfold LWLockAcquire, get_MyDatabaseId, hash_search_FIND, LWLockRelease.
  cbn. rewrite Hm. cbn. rewrite decide_True by done. cbn.
  unfold mret, M_ret. by destruct st.
Qed.

Lemma CheckQuota_held relid h st :
  (CheckQuota relid (with_held h st)).1 = (CheckQuota relid st).1.
Proof. rewrite !CheckQuota_eval. by destruct st. Qed.

Lemma UpdateQuotaRefreshRelationSize_eval relid newquota newtotalsize st s t :
  shared st = Some s →
  relation_totals_map st = Some t →
  UpdateQuotaRefreshRelationSize relid newquota newtotalsize st =
  match hash_enter t (mkKey relid (MyDatabaseId st)) with
  | Some (t', _) =>
      (Done (),
       with_map (Some (store_totalsize (mkKey relid (MyDatabaseId st)) newtotalsize
                         (store_quota (mkKey relid (MyDatabaseId st)) newquota t'))) st)
  | None =>
      (Raised (mkError ERRCODE_OUT_OF_MEMORY "out of shared memory"), with_held [] st)
  end.
Proof.
  intros Hs Hm.
  unfold UpdateQuotaRefreshRelationSize, mbind, M_bind, shared_lock.
  rewrite Hs.
  unfold LWLockAcquire, get_MyDatabaseId, hash_search_ENTER, assign, LWLockRelease.
  cbn. rewrite Hm.
  destruct (hash_enter t _) as [[t' found]|]; cbn.
  - rewrite decide_True by done. by destruct st.
  - by destruct st.
Qed.

Lemma get_quota_status_loop_eval iter tupstore st :
  get_quota_status_loop iter tupstore st =
  (Done (tupstore ++ (status_row <$> filter (λ e, dbid (key e) = MyDatabaseId st) iter)), st).
Proof.
  revert tupstore. induction iter as [|e iter IH]; intros tupstore; simpl.
  - unfold mret, M_ret. by rewrite app_nil_r.
  - unfold mbind, M_bind, get_MyDatabaseId. cbn.
    destruct (decide (dbid (key e) = MyDatabaseId st)) as [He|He].
    + rewrite decide_False by (intros ?; contradiction).
      rewrite IH. unfold tuplestore_putvalues. by rewrite <- app_assoc.
    + rewrite decide_True by done. apply IH.
Qed.

Lemma init_fs_model_loop_eval iter st t :
  relation_totals_map st = Some t →
  init_fs_model_loop iter st =
  (Done (), with_map (Some (reset_entries (MyDatabaseId st) iter t)) st).
Proof.
  revert st t. induction iter as [|e iter IH]; intros st t Hm; simpl.
  - unfold mret, M_ret. by rewrite with_map_same.
  - unfold mbind, M_bind, get_MyDatabaseId. cbn.
    destruct (decide (dbid (key e) = MyDatabaseId st)) as [He|He].
    + unfold hash_search_REMOVE. rewrite Hm.
      rewrite (IH _ (hash_remove t (key e))) by done. by destruct st.
    + unfold mret, M_ret. by apply IH.
Qed.

Lemma reset_entries_other db iter hashp k :
  dbid k ≠ db →
  ht_elems (reset_entries db iter hashp) !! k = ht_elems hashp !! k.
Proof.
  intros Hk. revert hashp. induction iter as [|e iter IH]; intros hashp; simpl; [done|].
  case_decide as He; rewrite IH; [|done].
  simpl. apply lookup_delete_ne. intros Heq. apply Hk. by rewrite <- Heq.
Qed.

Lemma reset_entries_absent db iter hashp k :
  ht_elems hashp !! k = None →
  ht_elems (reset_entries db iter hashp) !! k = None.
Proof.
  revert hashp. induction iter as [|e iter IH]; intros hashp Hk; simpl; [done|].
  apply IH. case_decide; [|done]. simpl. rewrite lookup_delete. by case_decide.
Qed.

Lemma reset_entries_visited db iter hashp e :
  e ∈ iter → dbid (key e) = db →
  ht_elems (reset_entries db iter hashp) !! key e = None.
Proof.
  revert hashp. induction iter as [|e' iter IH]; intros hashp Hin He; [by inversion Hin|].
  simpl. apply elem_of_cons in Hin as [<-|Hin].
  - rewrite decide_True by done. apply reset_entries_absent.
    simpl. apply lookup_delete_eq.
  - by apply IH.
Qed.

Lemma reset_entries_max_size db iter hashp :
  ht_max_size (reset_entries db iter hashp) = ht_max_size hashp.
Proof.
  revert hashp. induction iter as [|e iter IH]; intros hashp; simpl; [done|].
  rewrite IH. by case_decide.
Qed.

Lemma HTAB_eq (t1 t2 : HTAB) :
  (∀ k, ht_elems t1 !! k = ht_elems t2 !! k) →
  ht_max_size t1 = ht_max_size t2 →
  t1 = t2.
Proof.
  destruct t1, t2; simpl. intros He ->. f_equal. by apply map_eq.
Qed.

(** The table init_fs_model leaves behind. *)
Lemma init_fs_model_eval st s t :
  shared st = Some s →
  relation_totals_map st = Some t →
  init_fs_model st =
  (Done (), with_map (Some (reset_entries (MyDatabaseId st) (hash_seq t) t)) st).
Proof.
  intros Hs Hm.
  unfold init_fs_model, mbind, M_bind, shared_lock. rewrite Hs.
  unfold LWLockAcquire, hash_seq_all, LWLockRelease. cbn. rewrite Hm.
  erewrite init_fs_model_loop_eval by (simpl; done).
  cbn. rewrite decide_True by done. by destruct st.
Qed.

Lemma get_quota_status_eval fcinfo rsinfo tupdesc st :
  materialize_context fcinfo rsinfo tupdesc →
  get_quota_status fcinfo st =
  (match relation_totals_map st with
   | None => Done (mkReturnSetInfo (allowedModes rsinfo) SFRM_Materialize
                     (Some []) (Some tupdesc))
   | Some t =>
       match shared st with
       | None => Segfault
       | Some _ => Done (mkReturnSetInfo (allowedModes rsinfo) SFRM_Materialize
                           (Some (status_rows (MyDatabaseId st) t)) (Some tupdesc))
       end
   end, st).
Proof.
  intros (Hr & Hmode & Hty).
  unfold get_quota_status. rewrite Hr, Hty.
  rewrite decide_False by done. rewrite decide_False by (intros ?; contradiction).
  unfold mbind, M_bind, get_relation_totals_map.
  destruct (relation_totals_map st) as [t|] eqn:Hm; [|done].
  unfold shared_lock. destruct (shared st) as [s|] eqn:Hs; [|done].
  unfold LWLockAcquire, hash_seq_all, LWLockRelease. cbn. rewrite Hm.
  rewrite get_quota_status_loop_eval. cbn. rewrite decide_True by done.
  unfold mret, M_ret, status_rows. by destruct st.
Qed.

Lemma elem_of_status_rows db hashp row :
  row ∈ status_rows db hashp ↔
  ∃ e, hash_find hashp (key e) = Some e ∧ dbid (key e) = db ∧ row = status_row e.
Proof.
  unfold status_rows. rewrite list_elem_of_fmap. split.
  - intros (e & -> & [Hdb Hin%elem_of_hash_seq]%list_elem_of_filter). eauto.
  - intros (e & He & Hdb & ->). exists e. split; [done|].
    apply list_elem_of_filter. split; [done|]. by apply elem_of_hash_seq.
Qed.

Lemma get_quota_status_cases fcinfo :
  (∃ rsinfo tupdesc, materialize_context fcinfo rsinfo tupdesc)
  ∨ (∃ e, ∀ st, get_quota_status fcinfo st = (Raised e, with_held [] st)).
Proof.
  unfold materialize_context, get_quota_status.
  destruct (resultinfo fcinfo) as [[rsinfo|]|]; [|right; eauto..].
  case_decide as Hmode; [right; eauto|].
  destruct (call_result_type fcinfo) as [class tupdesc].
  case_decide as Hclass; [right; eauto|].
  left. exists rsinfo, tupdesc. split_and!; [done..|].
  f_equal. by destruct (decide (class = TYPEFUNC_COMPOSITE)).
Qed.

Lemma get_quota_status_held fcinfo h st :
  (get_quota_status fcinfo (with_held h st)).1 = (get_quota_status fcinfo st).1.
Proof.
  destruct (get_quota_status_cases fcinfo) as [(rsinfo & tupdesc & Hctx)|[e He]].
  - rewrite !(get_quota_status_eval _ _ _ _ Hctx). by destruct st.
  - by rewrite !He.
Qed.

Lemma CheckQuota_state relid st : (CheckQuota relid st).2 = st.
Proof. by rewrite CheckQuota_eval. Qed.

Lemma CheckQuota_Segfault relid relid' st :
  (CheckQuota relid st).1 = Segfault → (CheckQuota relid' st).1 = Segfault.
Proof.
  rewrite !CheckQuota_eval. simpl.
  by destruct (relation_totals_map st), (shared st).
Qed.

Lemma CheckQuota_not_Raised relid st e : (CheckQuota relid st).1 ≠ Raised e.
Proof.
  rewrite CheckQuota_eval. simpl.
  by destruct (relation_totals_map st), (shared st).
Qed.

Lemma quota_check_ExecCheckRTPerms_cons rte rest flag st :
  quota_check_ExecCheckRTPerms (rte :: rest) flag st =
  if decide (checked_target rte)
  then match (CheckQuota (rte_relid rte) st).1 with
       | Done true => quota_check_ExecCheckRTPerms rest flag st
       | Done false =>
           if flag
           then (Raised (mkError ERRCODE_DISK_FULL "table's disk space quota exceeded"),
                 with_held [] st)
           else (Done false, st)
       | Raised e => (Raised e, st)
       | Segfault => (Segfault, st)
       end
  else quota_check_ExecCheckRTPerms rest flag st.
Proof.
  simpl. unfold checked_target.
  destruct (decide (rtekind rte ≠ RTE_RELATION)) as [Hk|Hk].
  { rewrite decide_False; [done|]. by intros [? _]. }
  destruct (decide (Z.land (requiredPerms rte) ACL_INSERT = 0%Z)) as [Hp|Hp].
  { rewrite decide_False; [done|]. by intros [_ ?]. }
  rewrite decide_True by (split; [by destruct (decide (rtekind rte = RTE_RELATION))|done]).
  unfold mbind, M_bind.
  destruct (CheckQuota (rte_relid rte) st) as [o st'] eqn:Hc.
  pose proof (CheckQuota_state (rte_relid rte) st) as Hst. rewrite Hc in Hst.
  simpl in Hst. subst st'. simpl.
  destruct o as [[]| |]; simpl; [done| |done..].
  by destruct flag.
Qed.

(** ** The enforcement predicate *)

Section Attached.
(** A backend whose globals point into the shared segment. *)
Context (st : backend) (s : pg_quota_shared_state) (t : HTAB).
Context (Hshared : shared st = Some s).
Context (Hmap : relation_totals_map st = Some t).

Lemma CheckQuota_attached relid :
  CheckQuota relid st =
  (Done (within_quota (hash_find t (mkKey relid (MyDatabaseId st)))), st).
Proof. by rewrite CheckQuota_eval, Hmap, Hshared. Qed.

(** C1. For a stored entry of the current database: a quota of -1 (the
    sentinel) makes CheckQuota allow whatever totalsize is; a real limit
    (non-negative, as the data model has it) makes CheckQuota allow exactly
    when totalsize <= quota and deny exactly when totalsize > quota, so
    totalsize = quota is allowed. *)
Theorem CheckQuota_predicate relid e :
  hash_find t (mkKey relid (MyDatabaseId st)) = Some e →
  (quota e = (-1)%Z → (CheckQuota relid st).1 = Done true)
  ∧ ((0 ≤ quota e)%Z →
       ((CheckQuota relid st).1 = Done true ↔ (totalsize e ≤ quota e)%Z)
       ∧ ((CheckQuota relid st).1 = Done false ↔ (totalsize e > quota e)%Z)
       ∧ (totalsize e = quota e → (CheckQuota relid st).1 = Done true)).
Proof.
  intros He. rewrite CheckQuota_attached, He. simpl.
  split; [intros Hq | intros Hq; split_and!].
  - rewrite bool_decide_eq_false_2 by lia. done.
  - rewrite (bool_decide_eq_true_2 (0 ≤ quota e)%Z) by done. simpl.
    case_bool_decide; split; intros; (done || lia).
  - rewrite (bool_decide_eq_true_2 (0 ≤ quota e)%Z) by done. simpl.
    case_bool_decide; split; intros; (done || lia).
  - intros Heq. rewrite (bool_decide_eq_false_2 (quota e < totalsize e)%Z) by lia.
    by rewrite andb_false_r.
Qed.

(** C9. CheckQuota and the status view disagree about "no limit".  For a
    stored entry with a strictly negative quota CheckQuota allows whatever
    totalsize is, and get_quota_status returns a row for the relation; the
    quota column of that row is null only when the quota is exactly -1, and
    for any other negative quota the row carries that negative number as a
    non-null quota. *)
Theorem negative_quota_allowed_but_reported relid e fcinfo rsinfo tupdesc :
  hash_find t (mkKey relid (MyDatabaseId st)) = Some e →
  (quota e < 0)%Z →
  materialize_context fcinfo rsinfo tupdesc →
  (CheckQuota relid st).1 = Done true
  ∧ ∃ rows,
      get_quota_status fcinfo st =
        (Done (mkReturnSetInfo (allowedModes rsinfo) SFRM_Materialize
                 (Some rows) (Some tupdesc)), st)
      ∧ (quota e = (-1)%Z →
           mkTuple [Z.of_N relid; totalsize e; 0%Z] [false; false; true] ∈ rows)
      ∧ (quota e ≠ (-1)%Z →
           mkTuple [Z.of_N relid; totalsize e; quota e] [false; false; false] ∈ rows)
      ∧ (∀ row, row ∈ rows → values row !! 0 = Some (Z.of_N relid) →
           values row !! 1 = Some (totalsize e)
           ∧ (nulls row !! 2 = Some true ↔ quota e = (-1)%Z)
           ∧ (quota e ≠ (-1)%Z →
                values row !! 2 = Some (quota e) ∧ nulls row !! 2 = Some false)).
Proof.
  intros He Hq Hctx. split.
  { rewrite CheckQuota_attached, He. simpl.
    by rewrite bool_decide_eq_false_2 by lia. }
  exists (status_rows (MyDatabaseId st) t).
  apply hash_find_key in He as Hk.
  assert (Hrow : status_row e ∈ status_rows (MyDatabaseId st) t).
  { apply elem_of_status_rows. exists e. rewrite Hk. done. }
  split_and!.
  - by rewrite (get_quota_status_eval _ _ _ _ Hctx), Hmap, Hshared.
  - intros Hm1. unfold status_row in Hrow.
    rewrite decide_False, Hk in Hrow by (by intros ?). done.
  - intros Hne. unfold status_row in Hrow.
    rewrite decide_True, Hk in Hrow by done. done.
  - intros row (e' & He' & Hdb' & ->)%elem_of_status_rows Hfirst.
    assert (key e' = key e) as Hsame.
    { rewrite Hk. unfold status_row in Hfirst.
      destruct (key e') as [r d]. simpl in *. subst d. f_equal.
      apply (inj Z.of_N). case_decide; simpl in Hfirst; by simplify_eq. }
    assert (e' = e) as -> by (rewrite Hsame, Hk, He in He'; congruence).
    unfold status_row. case_decide as Hne; simpl.
    + split_and!; [done| |done]. split; intros; (done || lia).
    + split_and!; [done| |done]. split; intros; (done || lia).
Qed.
End Attached.

(** C3. CheckQuota answers "allowed" both when the store was never attached
    ([relation_totals_map] is still NULL) and when the table has no entry for
    the relation in the current database; neither case is an error, and the
    backend is left as it was. *)
Theorem CheckQuota_fail_open relid st :
  (relation_totals_map st = None → CheckQuota relid st = (Done true, st))
  ∧ (∀ s t,
       shared st = Some s →
       relation_totals_map st = Some t →
       hash_find t (mkKey relid (MyDatabaseId st)) = None →
       CheckQuota relid st = (Done true, st)).
Proof.
  split.
  - intros Hm. by rewrite CheckQuota_eval, Hm.
  - intros s t Hs Hm Hk. by rewrite (CheckQuota_attached st s t Hs Hm), Hk.
Qed.

(** C10. CheckQuota and get_quota_status only read the store: CheckQuota
    returns the backend it was given, get_quota_status never changes the
    table (not even when it rejects its call context), and a get_quota_status
    that completes returns the backend it was given. *)
Theorem readers_leave_store_unchanged st :
  (∀ relid, (CheckQuota relid st).2 = st)
  ∧ (∀ fcinfo,
       relation_totals_map (get_quota_status fcinfo st).2 = relation_totals_map st
       ∧ (∀ rsinfo, (get_quota_status fcinfo st).1 = Done rsinfo →
                    (get_quota_status fcinfo st).2 = st)).
Proof.
  split; [intros relid; apply CheckQuota_state|].
  intros fcinfo.
  destruct (get_quota_status_cases fcinfo) as [(rsinfo & tupdesc & Hctx)|[e He]].
  - rewrite (get_quota_status_eval _ _ _ _ Hctx). done.
  - rewrite He. simpl. done.
Qed.

(** ** The store: update, reset, enumeration *)

Lemma hash_enter_full hashp k :
  ht_max_size hashp ≤ size (ht_elems hashp) →
  hash_find hashp k = None →
  hash_enter hashp k = None.
Proof.
  intros Hfull Hk%hash_find_None. unfold hash_enter. rewrite Hk.
  rewrite decide_False by lia. done.
Qed.

Lemma hash_enter_room hashp k :
  has_room hashp k →
  ∃ t' found,
    hash_enter hashp k = Some (t', found)
    ∧ is_Some (ht_elems t' !! k)
    ∧ ht_max_size t' = ht_max_size hashp
    ∧ ∀ k', k' ≠ k → ht_elems t' !! k' = ht_elems hashp !! k'.
Proof.
  unfold has_room, hash_enter. intros Hroom.
  destruct (ht_elems hashp !! k) as [d|] eqn:Hk.
  - exists hashp, true. rewrite Hk. eauto.
  - destruct Hroom as [[? [=]]|Hlt]. rewrite decide_True by done.
    eexists _, false. split_and!; [done|simpl..].
    + rewrite lookup_insert_eq. eauto.
    + done.
    + intros k' Hne. by rewrite lookup_insert_ne.
Qed.

Lemma stored_fields k newquota newtotalsize hashp :
  is_Some (ht_elems hashp !! k) →
  hash_find (store_totalsize k newtotalsize (store_quota k newquota hashp)) k
  = Some (mkEntry k newtotalsize newquota).
Proof.
  intros [d Hd]. unfold hash_find, store_totalsize, store_quota. simpl.
  rewrite !lookup_alter_eq, Hd. done.
Qed.

Lemma stored_fields_other k k' newquota newtotalsize hashp :
  k' ≠ k →
  ht_elems (store_totalsize k newtotalsize (store_quota k newquota hashp)) !! k'
  = ht_elems hashp !! k'.
Proof.
  intros Hne. unfold store_totalsize, store_quota. simpl.
  by rewrite !lookup_alter_ne.
Qed.

Lemma NoDup_hash_seq hashp : NoDup (hash_seq hashp).
Proof.
  unfold hash_seq. apply NoDup_fmap_2_strong; [|apply NoDup_map_to_list].
  intros [k d] [k' d'] _ _ [= -> Hts Hq]. simpl in *.
  f_equal. destruct d, d'; simpl in *; congruence.
Qed.

Lemma NoDup_status_rows db hashp : NoDup (status_rows db hashp).
Proof.
  unfold status_rows. apply NoDup_fmap_2_strong.
  - intros e e' [Hdb He%elem_of_hash_seq]%list_elem_of_filter
      [Hdb' He'%elem_of_hash_seq]%list_elem_of_filter Hrow.
    assert (relid (key e) = relid (key e')) as Hrel.
    { unfold status_row in Hrow. apply (inj Z.of_N).
      repeat case_decide; by inversion Hrow. }
    assert (key e = key e') as Hkey.
    { destruct (key e), (key e'); simpl in *; congruence. }
    rewrite Hkey in He. congruence.
  - apply NoDup_filter, NoDup_hash_seq.
Qed.

Section Store.
Context (st : backend) (s : pg_quota_shared_state) (t : HTAB).
Context (Hshared : shared st = Some s).
Context (Hmap : relation_totals_map st = Some t).

(** C2. With the table full and the key new, UpdateQuotaRefreshRelationSize
    ends in dynahash's "out of shared memory" error; the table is the one
    it was, and CheckQuota and get_quota_status answer afterwards what they
    answered before. *)
Theorem Update_at_capacity relid newquota newtotalsize :
  ht_max_size t ≤ size (ht_elems t) →
  hash_find t (mkKey relid (MyDatabaseId st)) = None →
  ∃ st',
    UpdateQuotaRefreshRelationSize relid newquota newtotalsize st =
      (Raised (mkError ERRCODE_OUT_OF_MEMORY "out of shared memory"), st')
    ∧ relation_totals_map st' = Some t
    ∧ (∀ r, (CheckQuota r st').1 = (CheckQuota r st).1)
    ∧ (∀ fcinfo, (get_quota_status fcinfo st').1 = (get_quota_status fcinfo st).1).
Proof.
  intros Hfull Hnew. exists (with_held [] st).
  rewrite (UpdateQuotaRefreshRelationSize_eval _ _ _ _ _ _ Hshared Hmap).
  rewrite (hash_enter_full _ _ Hfull Hnew).
  split_and!; [done|done| |].
  - intros r. apply CheckQuota_held.
  - intros fcinfo. apply get_quota_status_held.
Qed.

(** C7. When the table has room for the key (it is there already, or an
    element is free), UpdateQuotaRefreshRelationSize succeeds, and a lookup
    of the same relation in the current database finds exactly the
    totalsize and quota just written, both replaced together; CheckQuota
    decides on these values and every other entry is as before. *)
Theorem Update_then_lookup relid newquota newtotalsize :
  has_room t (mkKey relid (MyDatabaseId st)) →
  ∃ t',
    UpdateQuotaRefreshRelationSize relid newquota newtotalsize st =
      (Done (), with_map (Some t') st)
    ∧ hash_find t' (mkKey relid (MyDatabaseId st))
      = Some (mkEntry (mkKey relid (MyDatabaseId st)) newtotalsize newquota)
    ∧ (CheckQuota relid (with_map (Some t') st)).1
      = Done (within_quota
                (Some (mkEntry (mkKey relid (MyDatabaseId st)) newtotalsize newquota)))
    ∧ (∀ k, k ≠ mkKey relid (MyDatabaseId st) → hash_find t' k = hash_find t k).
Proof.
  intros Hroom.
  destruct (hash_enter_room _ _ Hroom) as (t1 & found & Henter & Hin & _ & Hother).
  rewrite (UpdateQuotaRefreshRelationSize_eval _ _ _ _ _ _ Hshared Hmap), Henter.
  eexists. split; [done|].
  pose proof (stored_fields _ newquota newtotalsize _ Hin) as Hfind.
  split_and!; [done| |].
  - rewrite CheckQuota_eval. destruct st; simpl in *. rewrite Hshared.
    by rewrite Hfind.
  - intros k Hne. unfold hash_find.
    by rewrite stored_fields_other, Hother.
Qed.

(** C6. init_fs_model removes exactly the entries of the current database:
    afterwards no key of that database is found and the status view of that
    database is empty, every entry of every other database is found as
    before, and when the database had no entry the table is unchanged. *)
Theorem init_fs_model_resets_scope :
  ∃ t',
    init_fs_model st = (Done (), with_map (Some t') st)
    ∧ (∀ k, dbid k = MyDatabaseId st → hash_find t' k = None)
    ∧ (∀ k, dbid k ≠ MyDatabaseId st → hash_find t' k = hash_find t k)
    ∧ (∀ fcinfo rsinfo tupdesc,
         materialize_context fcinfo rsinfo tupdesc →
         (get_quota_status fcinfo (with_map (Some t') st)).1
         = Done (mkReturnSetInfo (allowedModes rsinfo) SFRM_Materialize
                   (Some []) (Some tupdesc)))
    ∧ ((∀ k, dbid k = MyDatabaseId st → hash_find t k = None) → t' = t).
Proof.
  exists (reset_entries (MyDatabaseId st) (hash_seq t) t).
  assert (Hgone : ∀ k, dbid k = MyDatabaseId st →
            hash_find (reset_entries (MyDatabaseId st) (hash_seq t) t) k = None).
  { intros k Hk. apply hash_find_None.
    destruct (ht_elems t !! k) as [d|] eqn:Hd.
    - apply (reset_entries_visited _ _ _ (entry_of k d)); [|done].
      apply elem_of_hash_seq. apply hash_find_Some. eauto.
    - by apply reset_entries_absent. }
  assert (Hkept : ∀ k, dbid k ≠ MyDatabaseId st →
            hash_find (reset_entries (MyDatabaseId st) (hash_seq t) t) k
            = hash_find t k).
  { intros k Hk. unfold hash_find. by rewrite reset_entries_other. }
  split_and!; [by apply (init_fs_model_eval _ s)|done|done| |].
  - intros fcinfo rsinfo tupdesc Hctx.
    rewrite (get_quota_status_eval _ _ _ _ Hctx).
    destruct st; simpl in *. rewrite Hshared. do 2 f_equal.
    unfold status_rows.
    rewrite (elem_of_nil_inv (filter _ _)); [done|].
    intros e [Hdb He%elem_of_hash_seq]%list_elem_of_filter.
    rewrite Hgone in He; done.
  - intros Hnone. apply HTAB_eq; [|apply reset_entries_max_size].
    intros k. destruct (decide (dbid k = MyDatabaseId st)) as [Hk|Hk].
    + specialize (Hgone k Hk). specialize (Hnone k Hk).
      apply hash_find_None in Hgone, Hnone. congruence.
    + by apply reset_entries_other.
Qed.

(** C8. In a call context it accepts, get_quota_status returns a row for
    every entry of the current database, each once, and no row for an
    entry of any other database;
    the quota column of a row is null when the stored quota is -1 and is
    the stored number otherwise. *)
Theorem get_quota_status_rows fcinfo rsinfo tupdesc :
  materialize_context fcinfo rsinfo tupdesc →
  ∃ rows,
    get_quota_status fcinfo st =
      (Done (mkReturnSetInfo (allowedModes rsinfo) SFRM_Materialize
               (Some rows) (Some tupdesc)), st)
    ∧ (∀ row, row ∈ rows ↔
         ∃ e, hash_find t (key e) = Some e
              ∧ dbid (key e) = MyDatabaseId st
              ∧ row = status_row e)
    ∧ NoDup rows
    ∧ (∀ e, quota e = (-1)%Z →
         status_row e =
         mkTuple [Z.of_N (relid (key e)); totalsize e; 0%Z] [false; false; true])
    ∧ (∀ e, quota e ≠ (-1)%Z →
         status_row e =
         mkTuple [Z.of_N (relid (key e)); totalsize e; quota e] [false; false; false]).
Proof.
  intros Hctx. exists (status_rows (MyDatabaseId st) t).
  assert (Hrows : ∀ row, row ∈ status_rows (MyDatabaseId st) t ↔
            ∃ e, hash_find t (key e) = Some e
                 ∧ dbid (key e) = MyDatabaseId st
                 ∧ row = status_row e).
  { intros row. unfold status_rows. rewrite list_elem_of_fmap. split.
    - intros (e & -> & [Hdb Hin%elem_of_hash_seq]%list_elem_of_filter). eauto.
    - intros (e & He & Hdb & ->). exists e. split; [done|].
      apply list_elem_of_filter. split; [done|]. by apply elem_of_hash_seq. }
  split_and!.
  - by rewrite (get_quota_status_eval _ _ _ _ Hctx), Hmap, Hshared.
  - done.
  - apply NoDup_status_rows.
  - intros e Hq. unfold status_row. rewrite decide_False; [done|]. by intros ?.
  - intros e Hq. unfold status_row. by rewrite decide_True.
Qed.
End Store.

(** ** The two hooks *)

Lemma get_rel_owner_eval relid st :
  get_rel_owner relid st =
  (Done (match syscache_RELOID st !! relid with
         | Some reltup => relowner reltup
         | None => InvalidOid
         end), st).
Proof.
  unfold get_rel_owner, mbind, M_bind, SearchSysCache1_RELOID.
  by destruct (syscache_RELOID st !! relid).
Qed.

Lemma quota_check_SmgrExtend_eval reln forknum blocknum buffer skipFsync st owner :
  (get_rel_owner (relNode (node (smgr_rnode reln))) st).1 = Done owner →
  quota_check_SmgrExtend reln forknum blocknum buffer skipFsync st =
  if decide (owner = InvalidOid) then (Done (), st)
  else match (CheckQuota owner st).1 with
       | Done true => (Done (), st)
       | Done false =>
           (Raised (mkError ERRCODE_DISK_FULL "user's disk space quota exceeded"),
            with_held [] st)
       | Raised e => (Raised e, st)
       | Segfault => (Segfault, st)
       end.
Proof.
  intros Howner. unfold quota_check_SmgrExtend, mbind, M_bind.
  rewrite get_rel_owner_eval in Howner |- *. simpl in Howner.
  injection Howner as ->. case_decide; [done|].
  destruct (CheckQuota owner st) as [o st'] eqn:Hc.
  pose proof (CheckQuota_state owner st) as Hst. rewrite Hc in Hst.
  simpl in Hst. subst st'. simpl.
  by destruct o as [[]| |].
Qed.

(** C4. In the SmgrExtend hook, an extension of a relation whose pg_class row
    is not found goes through whatever the store holds; when the row is found
    and names an owner, the hook raises the disk-full error exactly when
    CheckQuota denies for that owner, and returns normally exactly when
    CheckQuota allows. *)
Theorem quota_check_SmgrExtend_decision st reln forknum blocknum buffer skipFsync :
  (syscache_RELOID st !! relNode (node (smgr_rnode reln)) = None →
     quota_check_SmgrExtend reln forknum blocknum buffer skipFsync st = (Done (), st))
  ∧ (∀ reltup,
       syscache_RELOID st !! relNode (node (smgr_rnode reln)) = Some reltup →
       relowner reltup ≠ InvalidOid →
       ((quota_check_SmgrExtend reln forknum blocknum buffer skipFsync st).1
          = Raised (mkError ERRCODE_DISK_FULL "user's disk space quota exceeded")
        ↔ (CheckQuota (relowner reltup) st).1 = Done false)
       ∧ ((quota_check_SmgrExtend reln forknum blocknum buffer skipFsync st).1 = Done ()
          ↔ (CheckQuota (relowner reltup) st).1 = Done true)).
Proof.
  split.
  - intros Hnone.
    rewrite (quota_check_SmgrExtend_eval _ _ _ _ _ _ InvalidOid).
    + by rewrite decide_True.
    + by rewrite get_rel_owner_eval, Hnone.
  - intros reltup Hsome Hvalid.
    rewrite (quota_check_SmgrExtend_eval _ _ _ _ _ _ (relowner reltup))
      by (by rewrite get_rel_owner_eval, Hsome).
    rewrite decide_False by done.
    pose proof (CheckQuota_not_Raised (relowner reltup) st) as Hnr.
    destruct (CheckQuota (relowner reltup) st).1 as [[]|e|]; simpl;
      [| |by destruct (Hnr e)|]; split; split; intros; (done || discriminate).
Qed.

Lemma quota_check_ExecCheckRTPerms_filter rangeTable flag st :
  quota_check_ExecCheckRTPerms rangeTable flag st =
  quota_check_ExecCheckRTPerms (filter checked_target rangeTable) flag st.
Proof.
  induction rangeTable as [|rte rest IH]; [done|].
  rewrite filter_cons, quota_check_ExecCheckRTPerms_cons.
  destruct (decide (checked_target rte)) as [Hc|Hc]; [|done].
  rewrite quota_check_ExecCheckRTPerms_cons, decide_True by done.
  by rewrite IH.
Qed.

(** C5, as the code has it.  The ExecCheckRTPerms hook passes to CheckQuota
    only the range table entries that are relations with the INSERT bit
    required; all other entries do not influence the result.  When CheckQuota
    denies one of the checked entries the hook denies the whole range table:
    it raises the disk-full error if it was called with ereport_on_violation,
    and returns false otherwise.  When CheckQuota allows all checked entries
    the hook returns true and leaves the backend as it was. *)
Theorem quota_check_ExecCheckRTPerms_decision st rangeTable ereport_on_violation :
  quota_check_ExecCheckRTPerms rangeTable ereport_on_violation st
  = quota_check_ExecCheckRTPerms (filter checked_target rangeTable) ereport_on_violation st
  ∧ ((∃ rte, rte ∈ rangeTable ∧ checked_target rte
             ∧ (CheckQuota (rte_relid rte) st).1 = Done false) →
       (quota_check_ExecCheckRTPerms rangeTable ereport_on_violation st).1
       = if ereport_on_violation
         then Raised (mkError ERRCODE_DISK_FULL "table's disk space quota exceeded")
         else Done false)
  ∧ ((∀ rte, rte ∈ rangeTable → checked_target rte →
             (CheckQuota (rte_relid rte) st).1 = Done true) →
       quota_check_ExecCheckRTPerms rangeTable ereport_on_violation st = (Done true, st)).
Proof.
  split_and!.
  - apply quota_check_ExecCheckRTPerms_filter.
  - induction rangeTable as [|rte rest IH]; intros (x & Hin & Hchecked & Hdeny).
    { by inversion Hin. }
    rewrite quota_check_ExecCheckRTPerms_cons.
    apply elem_of_cons in Hin as [->|Hin].
    + rewrite decide_True, Hdeny by done. by destruct ereport_on_violation.
    + case_decide as Hc; [|by eauto].
      destruct (CheckQuota (rte_relid rte) st).1 as [[]|e|] eqn:Hhead.
      * by eauto.
      * by destruct ereport_on_violation.
      * by apply CheckQuota_not_Raised in Hhead.
      * apply (CheckQuota_Segfault _ (rte_relid x)) in Hhead. congruence.
  - induction rangeTable as [|rte rest IH]; intros Hall; [done|].
    rewrite quota_check_ExecCheckRTPerms_cons.
    case_decide as Hc.
    + rewrite (Hall rte) by (done || apply elem_of_cons; by left).
      apply IH. intros x Hin. apply Hall, elem_of_cons. by right.
    + apply IH. intros x Hin. apply Hall, elem_of_cons. by right.
Qed.

(** C5 without the ereport_on_violation flag does not hold: called with
    ereport_on_violation = false on a range table whose only target is over
    quota, the hook returns false and raises nothing. *)
Lemma denied_target_raises_fails :
  ¬ denied_target_raises demo_backend [mkRTE RTE_RELATION 10 ACL_INSERT] false.
Proof.
  intros Hclaim. destruct Hclaim as [msg Hmsg].
  - exists (mkRTE RTE_RELATION 10 ACL_INSERT). split_and!.
    + apply list_elem_of_singleton. reflexivity.
    + split; [reflexivity|]. vm_compute. discriminate.
    + vm_compute. reflexivity.
  - vm_compute in Hmsg. discriminate.
Qed.

(** ** Concrete instances *)

(** Relation 10 of database 5 holds 2100000 bytes against a quota of 2000000:
    denied. *)
Lemma CheckQuota_predicate_witness :
  hash_find demo_table (mkKey 10 (MyDatabaseId demo_backend))
    = Some (mkEntry (mkKey 10 5) 2100000 2000000)
  ∧ (0 ≤ 2000000)%Z
  ∧ ((CheckQuota 10 demo_backend).1 = Done false ↔ (2100000 > 2000000)%Z).
Proof.
  assert (Hfind : hash_find demo_table (mkKey 10 (MyDatabaseId demo_backend))
                  = Some (mkEntry (mkKey 10 5) 2100000 2000000))
    by (vm_compute; reflexivity).
  assert (Hlimit : (0 ≤ 2000000)%Z) by lia.
  split_and!; [exact Hfind|exact Hlimit|].
  exact (proj1 (proj2 (proj2 (CheckQuota_predicate demo_backend (mkShared 77) demo_table
                                eq_refl eq_refl 10%N _ Hfind) Hlimit))).
Defined.

(** The demo table is full; relation 99 is new in database 5. *)
Lemma Update_at_capacity_witness :
  ht_max_size demo_table ≤ size (ht_elems demo_table)
  ∧ hash_find demo_table (mkKey 99 (MyDatabaseId demo_backend)) = None
  ∧ ∃ st',
      UpdateQuotaRefreshRelationSize 99 1000 10 demo_backend =
        (Raised (mkError ERRCODE_OUT_OF_MEMORY "out of shared memory"), st')
      ∧ relation_totals_map st' = Some demo_table
      ∧ (∀ r, (CheckQuota r st').1 = (CheckQuota r demo_backend).1)
      ∧ (∀ fcinfo, (get_quota_status fcinfo st').1
                   = (get_quota_status fcinfo demo_backend).1).
Proof.
  assert (Hfull : ht_max_size demo_table ≤ size (ht_elems demo_table))
    by (vm_compute; lia).
  assert (Hnew : hash_find demo_table (mkKey 99 (MyDatabaseId demo_backend)) = None)
    by (vm_compute; reflexivity).
  split_and!; [exact Hfull|exact Hnew|].
  exact (Update_at_capacity demo_backend (mkShared 77) demo_table eq_refl eq_refl
           99%N 1000%Z 10%Z Hfull Hnew).
Defined.

Lemma CheckQuota_fail_open_witness :
  relation_totals_map (backend_start 5 ∅) = None
  ∧ CheckQuota 10 (backend_start 5 ∅) = (Done true, backend_start 5 ∅)
  ∧ hash_find demo_table (mkKey 99 (MyDatabaseId demo_backend)) = None
  ∧ CheckQuota 99 demo_backend = (Done true, demo_backend).
Proof.
  assert (Hnew : hash_find demo_table (mkKey 99 (MyDatabaseId demo_backend)) = None)
    by (vm_compute; reflexivity).
  split_and!; [reflexivity| |exact Hnew|].
  - exact (proj1 (CheckQuota_fail_open 10%N (backend_start 5 ∅)) eq_refl).
  - exact (proj2 (CheckQuota_fail_open 99%N demo_backend)
             (mkShared 77) demo_table eq_refl eq_refl Hnew).
Defined.

(** File node 555 has no pg_class row; file node 900 belongs to owner 10, who
    is over quota in the demo table. *)
Lemma quota_check_SmgrExtend_decision_witness :
  quota_check_SmgrExtend
    (mkSMgrRelation (mkRelFileNodeBackend (mkRelFileNode 1663 5 555)))
    MAIN_FORKNUM 0 [] false demo_backend = (Done (), demo_backend)
  ∧ (quota_check_SmgrExtend
       (mkSMgrRelation (mkRelFileNodeBackend (mkRelFileNode 1663 5 900)))
       MAIN_FORKNUM 0 [] false demo_backend).1
    = Raised (mkError ERRCODE_DISK_FULL "user's disk space quota exceeded").
Proof.
  split.
  - apply (proj1 (quota_check_SmgrExtend_decision demo_backend
                    (mkSMgrRelation (mkRelFileNodeBackend (mkRelFileNode 1663 5 555)))
                    MAIN_FORKNUM 0%N [] false)).
    vm_compute. reflexivity.
  - apply (proj2 (quota_check_SmgrExtend_decision demo_backend
                    (mkSMgrRelation (mkRelFileNodeBackend (mkRelFileNode 1663 5 900)))
                    MAIN_FORKNUM 0%N [] false) (mkClass 10)).
    + vm_compute. reflexivity.
    + vm_compute. discriminate.
    + vm_compute. reflexivity.
Defined.

(** A join entry and a SELECT-only relation are skipped; the INSERT target 10
    is over quota. *)
Lemma quota_check_ExecCheckRTPerms_decision_witness :
  (quota_check_ExecCheckRTPerms
     [mkRTE RTE_JOIN 0 0; mkRTE RTE_RELATION 12 2; mkRTE RTE_RELATION 10 3]
     true demo_backend).1
  = Raised (mkError ERRCODE_DISK_FULL "table's disk space quota exceeded")
  ∧ quota_check_ExecCheckRTPerms
      [mkRTE RTE_JOIN 0 0; mkRTE RTE_RELATION 12 3; mkRTE RTE_RELATION 10 2]
      true demo_backend
    = (Done true, demo_backend).
Proof.
  split.
  - apply (proj1 (proj2 (quota_check_ExecCheckRTPerms_decision demo_backend
             [mkRTE RTE_JOIN 0 0; mkRTE RTE_RELATION 12 2; mkRTE RTE_RELATION 10 3] true))).
    exists (mkRTE RTE_RELATION 10 3). split_and!.
    + do 2 right. left.
    + split; [reflexivity|]. vm_compute. discriminate.
    + vm_compute. reflexivity.
  - apply (proj2 (proj2 (quota_check_ExecCheckRTPerms_decision demo_backend
             [mkRTE RTE_JOIN 0 0; mkRTE RTE_RELATION 12 3; mkRTE RTE_RELATION 10 2] true))).
    intros rte Hin [Hkind Hperm].
    apply elem_of_cons in Hin as [->|Hin]; [discriminate Hkind|].
    apply elem_of_cons in Hin as [->|Hin]; [vm_compute; reflexivity|].
    apply list_elem_of_singleton in Hin as ->.
    exfalso. apply Hperm. vm_compute. reflexivity.
Defined.

Lemma init_fs_model_resets_scope_witness :
  ∃ t',
    init_fs_model demo_backend = (Done (), with_map (Some t') demo_backend)
    ∧ hash_find t' (mkKey 10 5) = None
    ∧ hash_find t' (mkKey 10 6) = Some (mkEntry (mkKey 10 6) 4096 4096).
Proof.
  destruct (init_fs_model_resets_scope demo_backend (mkShared 77) demo_table
              eq_refl eq_refl) as (t' & Hrun & Hgone & Hkept & _).
  exists t'. split_and!.
  - exact Hrun.
  - apply Hgone. reflexivity.
  - rewrite Hkept by (vm_compute; discriminate). vm_compute. reflexivity.
Defined.

(** Replacing the entry of relation 10 in the (full) demo table. *)
Lemma Update_then_lookup_witness :
  has_room demo_table (mkKey 10 (MyDatabaseId demo_backend))
  ∧ ∃ t',
      UpdateQuotaRefreshRelationSize 10 2000000 0 demo_backend =
        (Done (), with_map (Some t') demo_backend)
      ∧ hash_find t' (mkKey 10 5) = Some (mkEntry (mkKey 10 5) 0 2000000).
Proof.
  assert (Hroom : has_room demo_table (mkKey 10 (MyDatabaseId demo_backend))).
  { left. exists (2100000, 2000000)%Z. vm_compute. reflexivity. }
  split; [exact Hroom|].
  destruct (Update_then_lookup demo_backend (mkShared 77) demo_table eq_refl eq_refl
              10%N 2000000%Z 0%Z Hroom) as (t' & Hrun & Hfind & _).
  exists t'. split; [exact Hrun|exact Hfind].
Defined.

Lemma get_quota_status_rows_witness :
  materialize_context demo_fcinfo (mkReturnSetInfo 3 SFRM_ValuePerCall None None)
    ["relid"; "space_used"; "quota"]
  ∧ ∃ rows,
      (get_quota_status demo_fcinfo demo_backend).1 =
        Done (mkReturnSetInfo 3 SFRM_Materialize (Some rows)
                (Some ["relid"; "space_used"; "quota"]))
      ∧ mkTuple [12; 0; 0]%Z [false; false; true] ∈ rows
      ∧ mkTuple [10; 4096; 4096]%Z [false; false; false] ∉ rows.
Proof.
  assert (Hctx : materialize_context demo_fcinfo
                   (mkReturnSetInfo 3 SFRM_ValuePerCall None None)
                   ["relid"; "space_used"; "quota"]).
  { split_and!; [reflexivity| |reflexivity]. vm_compute. discriminate. }
  split; [exact Hctx|].
  destruct (get_quota_status_rows demo_backend (mkShared 77) demo_table eq_refl eq_refl
              demo_fcinfo _ _ Hctx) as (rows & Hrun & Hrows & _).
  exists rows. split_and!.
  - rewrite Hrun. reflexivity.
  - apply Hrows. exists (mkEntry (mkKey 12 5) 0 (-1)). split_and!.
    + vm_compute. reflexivity.
    + reflexivity.
    + vm_compute. reflexivity.
  - intros (e & Hfind & Hdb & Hrow)%Hrows.
    destruct e as [[r d] ts q]. simpl in *. subst d.
    unfold status_row in Hrow. simpl in Hrow.
    assert (r = 10%N) as ->.
    { apply (inj Z.of_N). case_decide; by inversion Hrow. }
    vm_compute in Hfind. case_decide; by inversion Hrow; subst; discriminate Hfind.
Defined.

(** Relation 11 has quota -2: every write is allowed, and the view prints -2
    as its quota. *)
Lemma negative_quota_allowed_but_reported_witness :
  hash_find demo_table (mkKey 11 (MyDatabaseId demo_backend))
    = Some (mkEntry (mkKey 11 5) 7 (-2))
  ∧ (-2 < 0)%Z
  ∧ materialize_context demo_fcinfo (mkReturnSetInfo 3 SFRM_ValuePerCall None None)
      ["relid"; "space_used"; "quota"]
  ∧ (CheckQuota 11 demo_backend).1 = Done true
  ∧ ∃ rows,
      (get_quota_status demo_fcinfo demo_backend).1
      = Done (mkReturnSetInfo 3 SFRM_Materialize (Some rows)
                (Some ["relid"; "space_used"; "quota"]))
      ∧ mkTuple [11; 7; -2]%Z [false; false; false] ∈ rows.
Proof.
  assert (Hfind : hash_find demo_table (mkKey 11 (MyDatabaseId demo_backend))
                  = Some (mkEntry (mkKey 11 5) 7 (-2)))
    by (vm_compute; reflexivity).
  assert (Hneg : (-2 < 0)%Z) by lia.
  assert (Hctx : materialize_context demo_fcinfo
                   (mkReturnSetInfo 3 SFRM_ValuePerCall None None)
                   ["relid"; "space_used"; "quota"]).
  { split_and!; [reflexivity| |reflexivity]. vm_compute. discriminate. }
  split_and!; [exact Hfind|exact Hneg|exact Hctx|..].
  - exact (proj1 (negative_quota_allowed_but_reported demo_backend (mkShared 77)
                    demo_table eq_refl eq_refl 11%N _ demo_fcinfo _ _ Hfind Hneg Hctx)).
  - destruct (proj2 (negative_quota_allowed_but_reported demo_backend (mkShared 77)
                       demo_table eq_refl eq_refl 11%N _ demo_fcinfo _ _ Hfind Hneg Hctx))
      as (rows & Hrun & _ & Hshown & _).
    exists rows. split.
    + rewrite Hrun. reflexivity.
    + apply Hshown. simpl. lia.
Defined.

Lemma readers_leave_store_unchanged_witness :
  (CheckQuota 10 demo_backend).2 = demo_backend
  ∧ (get_quota_status demo_fcinfo demo_backend).2 = demo_backend.
Proof.
  split.
  - exact (proj1 (readers_leave_store_unchanged demo_backend) 10%N).
  - eapply (proj2 (proj2 (readers_leave_store_unchanged demo_backend) demo_fcinfo)).
    reflexivity.
Defined.


(** ** Scenarios *)

(** The table created at startup holds MAX_DB_ROLE_ENTRIES elements and is
    empty. *)
Example startup_creates_empty_table :
  relation_totals_map fresh_backend = Some (mkHTAB ∅ MAX_DB_ROLE_ENTRIES)
  ∧ shared fresh_backend = Some (mkShared 77).
Proof. split; reflexivity. Qed.

(** An attaching backend reuses the table that is already in the segment. *)
Example startup_attaches_existing_table :
  relation_totals_map (pg_quota_shmem_startup 77 (Some demo_table) (backend_start 6 ∅)).2
  = Some demo_table.
Proof. reflexivity. Qed.

(** No quota: allowed.  Over a quota of 2000000: denied.  Back under it:
    allowed again. *)
Example quota_set_exceeded_freed :
  let st1 := (UpdateQuotaRefreshRelationSize 10 (-1) 0 fresh_backend).2 in
  let st2 := (UpdateQuotaRefreshRelationSize 10 2000000 2100000 st1).2 in
  let st3 := (UpdateQuotaRefreshRelationSize 10 2000000 0 st2).2 in
  (CheckQuota 10 st1).1 = Done true
  ∧ (CheckQuota 10 st2).1 = Done false
  ∧ (quota_check_ExecCheckRTPerms [mkRTE RTE_RELATION 10 ACL_INSERT] true st2).1
    = Raised (mkError ERRCODE_DISK_FULL "table's disk space quota exceeded")
  ∧ (CheckQuota 10 st3).1 = Done true.
Proof. vm_compute. split_and!; reflexivity. Qed.

(** The same relation OID in two databases is two entries. *)
Example same_relid_two_databases :
  hash_find demo_table (mkKey 10 5) = Some (mkEntry (mkKey 10 5) 2100000 2000000)
  ∧ hash_find demo_table (mkKey 10 6) = Some (mkEntry (mkKey 10 6) 4096 4096).
Proof. vm_compute. split; reflexivity. Qed.

(** The status view of database 5 on the demo table: three rows, the quota
    of relation 12 null, the quota of relation 11 shown as -2. *)
Example demo_status_view :
  ∃ rows,
    (get_quota_status demo_fcinfo demo_backend).1
    = Done (mkReturnSetInfo 3 SFRM_Materialize (Some rows)
              (Some ["relid"; "space_used"; "quota"]))
    ∧ length rows = 3
    ∧ mkTuple [10; 2100000; 2000000]%Z [false; false; false] ∈ rows
    ∧ mkTuple [11; 7; -2]%Z [false; false; false] ∈ rows
    ∧ mkTuple [12; 0; 0]%Z [false; false; true] ∈ rows.
Proof.
  eexists. split; [vm_compute; reflexivity|].
  split_and!; [reflexivity|set_solver..].
Qed.


(** ** Further properties of the store *)

Lemma with_map_with_map t1 t2 st :
  with_map t2 (with_map t1 st) = with_map t2 st.
Proof. by destruct st. Qed.

Lemma hash_enter_fields hashp k newquota newtotalsize t' found :
  hash_enter hashp k = Some (t', found) →
  store_totalsize k newtotalsize (store_quota k newquota t')
  = updated k newquota newtotalsize hashp.
Proof.
  unfold hash_enter. intros Henter.
  apply HTAB_eq; [|destruct (ht_elems hashp !! k); [|case_decide]; by simplify_eq/=].
  intros k'. unfold store_totalsize, store_quota, updated. simpl.
  destruct (decide (k' = k)) as [->|Hne].
  - rewrite !lookup_alter_eq, lookup_insert_eq.
    destruct (ht_elems hashp !! k) as [d|] eqn:Hk; [|case_decide]; simplify_eq/=.
    + by rewrite Hk.
    + by rewrite lookup_insert_eq.
  - rewrite !lookup_alter_ne, lookup_insert_ne by done.
    destruct (ht_elems hashp !! k) as [d|] eqn:Hk; [|case_decide]; simplify_eq/=.
    + done.
    + by rewrite lookup_insert_ne.
Qed.

Lemma hash_enter_is_Some hashp k :
  is_Some (hash_enter hashp k) ↔ has_room hashp k.
Proof.
  unfold hash_enter, has_room.
  destruct (ht_elems hashp !! k) as [d|]; [split; eauto|].
  case_decide; split; eauto.
  - intros [? [=]].
  - intros [[? [=]]|?]. lia.
Qed.

(** What UpdateQuotaRefreshRelationSize does on an attached backend. *)
Lemma Update_attached relid newquota newtotalsize st s t :
  shared st = Some s →
  relation_totals_map st = Some t →
  UpdateQuotaRefreshRelationSize relid newquota newtotalsize st =
  if decide (has_room t (mkKey relid (MyDatabaseId st)))
  then (Done (),
        with_map (Some (updated (mkKey relid (MyDatabaseId st)) newquota newtotalsize t)) st)
  else (Raised (mkError ERRCODE_OUT_OF_MEMORY "out of shared memory"), with_held [] st).
Proof.
  intros Hs Hm. rewrite (UpdateQuotaRefreshRelationSize_eval _ _ _ _ _ _ Hs Hm).
  destruct (hash_enter t _) as [[t' found]|] eqn:Henter.
  - rewrite decide_True by (apply hash_enter_is_Some; eauto).
    by rewrite (hash_enter_fields _ _ _ _ _ _ Henter).
  - rewrite decide_False; [done|].
    intros [? Hx]%hash_enter_is_Some. congruence.
Qed.

Lemma has_room_updated hashp k newquota newtotalsize :
  has_room (updated k newquota newtotalsize hashp) k.
Proof. left. simpl. rewrite lookup_insert_eq. eauto. Qed.

Lemma size_updated hashp k newquota newtotalsize :
  size (ht_elems (updated k newquota newtotalsize hashp))
  = if decide (is_Some (ht_elems hashp !! k))
    then size (ht_elems hashp) else S (size (ht_elems hashp)).
Proof.
  simpl. case_decide as Hk.
  - destruct Hk as [d Hd]. by eapply map_size_insert_Some.
  - apply map_size_insert_None. by apply eq_None_not_Some.
Qed.

(** What init_fs_model leaves: the table without the database's entries. *)
Lemma reset_entries_without_db db hashp :
  reset_entries db (hash_seq hashp) hashp = without_db db hashp.
Proof.
  apply HTAB_eq; [|by rewrite reset_entries_max_size].
  intros k. unfold without_db. simpl. rewrite map_lookup_filter.
  destruct (decide (dbid k = db)) as [Hk|Hk].
  - destruct (ht_elems hashp !! k) as [d|] eqn:Hd; simpl.
    + rewrite option_guard_False by (simpl; intros ?; contradiction).
      apply (reset_entries_visited _ _ _ (entry_of k d)); [|done].
      apply elem_of_hash_seq, hash_find_Some. eauto.
    + by apply reset_entries_absent.
  - rewrite reset_entries_other by done.
    destruct (ht_elems hashp !! k) as [d|]; simpl; [|done].
    by rewrite option_guard_True.
Qed.

Lemma init_fs_model_attached st s t :
  shared st = Some s →
  relation_totals_map st = Some t →
  init_fs_model st = (Done (), with_map (Some (without_db (MyDatabaseId st) t)) st).
Proof.
  intros Hs Hm. rewrite (init_fs_model_eval _ _ _ Hs Hm).
  by rewrite reset_entries_without_db.
Qed.

Lemma without_db_lookup db hashp k :
  hash_find (without_db db hashp) k
  = if decide (dbid k = db) then None else hash_find hashp k.
Proof.
  unfold hash_find, without_db. simpl. rewrite map_lookup_filter.
  destruct (ht_elems hashp !! k) as [d|]; simpl; [|by case_decide].
  case_decide.
  - by rewrite option_guard_False by (simpl; intros ?; contradiction).
  - by rewrite option_guard_True.
Qed.

Lemma updated_updated k q1 s1 q2 s2 hashp :
  updated k q2 s2 (updated k q1 s1 hashp) = updated k q2 s2 hashp.
Proof. unfold updated. simpl. by rewrite insert_insert_eq. Qed.

Lemma updated_comm k1 k2 q1 s1 q2 s2 hashp :
  k1 ≠ k2 →
  updated k1 q1 s1 (updated k2 q2 s2 hashp) = updated k2 q2 s2 (updated k1 q1 s1 hashp).
Proof. intros Hne. unfold updated. simpl. by rewrite insert_insert_ne. Qed.

Lemma fits_both_room k1 k2 q1 s1 q2 s2 hashp :
  fits (updated k1 q1 s1 (updated k2 q2 s2 hashp)) →
  has_room hashp k2 ∧ has_room (updated k2 q2 s2 hashp) k1.
Proof.
  unfold fits, has_room. intros Hfits.
  pose proof (size_updated (updated k2 q2 s2 hashp) k1 q1 s1) as H1.
  pose proof (size_updated hashp k2 q2 s2) as H2.
  change (ht_max_size (updated k1 q1 s1 (updated k2 q2 s2 hashp)))
    with (ht_max_size hashp) in Hfits.
  change (ht_max_size (updated k2 q2 s2 hashp)) with (ht_max_size hashp).
  repeat case_decide; split; (by left) || (right; lia).
Qed.

(** X1. Writing the same relation twice leaves what the second call alone would
    leave: the outcome and the whole backend state agree, also when the
    table is full and both calls fail. *)
Theorem Update_last_write_wins st s t relid q1 s1 q2 s2 :
  shared st = Some s →
  relation_totals_map st = Some t →
  UpdateQuotaRefreshRelationSize relid q2 s2
    (UpdateQuotaRefreshRelationSize relid q1 s1 st).2
  = UpdateQuotaRefreshRelationSize relid q2 s2 st.
Proof.
  intros Hs Hm.
  rewrite (Update_attached relid q1 s1 st s t Hs Hm).
  rewrite (Update_attached relid q2 s2 st s t Hs Hm).
  case_decide as Hroom; simpl.
  - erewrite Update_attached by (by destruct st).
    destruct st; simpl in *.
    rewrite decide_True by apply has_room_updated.
    by rewrite updated_updated.
  - erewrite Update_attached by (by destruct st).
    destruct st; simpl in *. by rewrite decide_False.
Qed.

(** X2. Updates of two different relations can be made in either order when
    the table has room for both: both succeed and the backend ends in the
    same state. *)
Theorem Update_distinct_commute st s t r1 q1 s1 r2 q2 s2 :
  shared st = Some s →
  relation_totals_map st = Some t →
  r1 ≠ r2 →
  fits (updated (mkKey r1 (MyDatabaseId st)) q1 s1
          (updated (mkKey r2 (MyDatabaseId st)) q2 s2 t)) →
  (UpdateQuotaRefreshRelationSize r2 q2 s2
     (UpdateQuotaRefreshRelationSize r1 q1 s1 st).2).1 = Done ()
  ∧ UpdateQuotaRefreshRelationSize r2 q2 s2
      (UpdateQuotaRefreshRelationSize r1 q1 s1 st).2
    = UpdateQuotaRefreshRelationSize r1 q1 s1
        (UpdateQuotaRefreshRelationSize r2 q2 s2 st).2.
Proof.
  intros Hs Hm Hr Hfits.
  assert (Hk : mkKey r1 (MyDatabaseId st) ≠ mkKey r2 (MyDatabaseId st)) by congruence.
  destruct (fits_both_room _ _ _ _ _ _ _ Hfits) as [Hroom2 Hroom21].
  rewrite updated_comm in Hfits by done.
  destruct (fits_both_room _ _ _ _ _ _ _ Hfits) as [Hroom1 Hroom12].
  rewrite (Update_attached r1 q1 s1 st s t Hs Hm), decide_True by done.
  rewrite (Update_attached r2 q2 s2 st s t Hs Hm), decide_True by done.
  simpl.
  erewrite (Update_attached r2) by (by destruct st).
  erewrite (Update_attached r1) by (by destruct st).
  destruct st; simpl in *.
  rewrite !decide_True by done. simpl.
  split; [done|]. unfold with_map. simpl. by rewrite updated_comm.
Qed.

Lemma refresh_all_room us : ∀ st s t,
  shared st = Some s →
  relation_totals_map st = Some t →
  size (ht_elems t) + length us ≤ ht_max_size t →
  ∃ t',
    refresh_all us st = (Done (), with_map (Some t') st)
    ∧ ht_max_size t' = ht_max_size t
    ∧ size (ht_elems t') ≤ size (ht_elems t) + length us
    ∧ (∀ k, dbid k ≠ MyDatabaseId st → hash_find t' k = hash_find t k).
Proof.
  induction us as [|[[r q] sz] us IH]; intros st s t Hs Hm Hsize; simpl in *.
  - exists t. rewrite with_map_same by done. split_and!; [done|done|lia|done].
  - unfold mbind, M_bind.
    rewrite (Update_attached r q sz st s t Hs Hm).
    rewrite decide_True by (right; lia).
    set (t1 := updated (mkKey r (MyDatabaseId st)) q sz t).
    assert (Hsz1 : size (ht_elems t1) ≤ S (size (ht_elems t))).
    { unfold t1. rewrite size_updated. case_decide; lia. }
    destruct (IH (with_map (Some t1) st) s t1) as (t' & Hrun & Hmax & Hsz & Hother).
    { by destruct st. }
    { by destruct st. }
    { change (ht_max_size t1) with (ht_max_size t). lia. }
    exists t'. rewrite Hrun, with_map_with_map.
    split_and!; [done|by rewrite Hmax|lia|].
    intros k Hk. rewrite Hother by (by destruct st).
    unfold hash_find, t1. simpl. rewrite lookup_insert_ne; [done|].
    intros <-. simpl in Hk. by destruct st.
Qed.

(** X3. A refresh cycle no longer than the number of free elements succeeds as a
    whole: no call runs out of shared memory, the table still fits, and the
    entries of other databases are as before. *)
Theorem refresh_all_within_capacity st s t us :
  shared st = Some s →
  relation_totals_map st = Some t →
  size (ht_elems t) + length us ≤ ht_max_size t →
  ∃ t',
    refresh_all us st = (Done (), with_map (Some t') st)
    ∧ fits t'
    ∧ (∀ k, dbid k ≠ MyDatabaseId st → hash_find t' k = hash_find t k).
Proof.
  intros Hs Hm Hsize.
  destruct (refresh_all_room us st s t Hs Hm Hsize) as (t' & Hrun & Hmax & Hsz & Hother).
  exists t'. split_and!; [done| |done]. unfold fits. lia.
Qed.

(** X4. The table created at startup takes MAX_DB_ROLE_ENTRIES updates, whatever
    the relations are, before any update can fail. *)
Theorem startup_table_takes_max_entries st tranche us :
  length us ≤ MAX_DB_ROLE_ENTRIES →
  (refresh_all us (pg_quota_shmem_startup tranche None st).2).1 = Done ().
Proof.
  intros Hlen.
  destruct (refresh_all_room us (pg_quota_shmem_startup tranche None st).2
              (mkShared tranche) (mkHTAB ∅ MAX_DB_ROLE_ENTRIES) eq_refl eq_refl)
    as (t' & Hrun & _).
  { simpl. rewrite map_size_empty. lia. }
  by rewrite Hrun.
Qed.

Lemma without_db_idemp db hashp :
  without_db db (without_db db hashp) = without_db db hashp.
Proof.
  apply HTAB_eq; [|reflexivity]. intros k.
  unfold without_db. simpl. rewrite !map_lookup_filter.
  destruct (ht_elems hashp !! k) as [d|]; simpl; [|done].
  destruct (decide (dbid k ≠ db)).
  - rewrite option_guard_True by done. simpl. by rewrite option_guard_True.
  - by rewrite option_guard_False.
Qed.

Lemma length_filter_map_to_list (P : RelationSizeEntryKey * (Z * Z) → Prop)
    `{!∀ x, Decision (P x)} (m : gmap RelationSizeEntryKey (Z * Z)) :
  length (filter P (map_to_list m)) = size (filter P m).
Proof.
  induction m as [|k d m Hk IH] using map_ind.
  - by rewrite map_filter_empty, map_to_list_empty, map_size_empty.
  - rewrite map_to_list_insert by done. rewrite filter_cons.
    rewrite map_filter_insert. case_decide as HP; simpl.
    + rewrite map_size_insert_None by (by rewrite map_lookup_filter, Hk). by rewrite IH.
    + rewrite delete_id by done. done.
Qed.

Lemma length_status_rows db hashp :
  length (status_rows db hashp)
  = size (filter (λ kd, dbid kd.1 = db) (ht_elems hashp)).
Proof.
  unfold status_rows, hash_seq. rewrite length_fmap.
  rewrite <- (length_filter_map_to_list (λ kd, dbid kd.1 = db)).
  generalize (map_to_list (ht_elems hashp)). intros l.
  induction l as [|kd l IH]; [done|].
  rewrite fmap_cons, !filter_cons. simpl.
  case_decide; simpl; by rewrite IH.
Qed.

Lemma size_without_db db hashp :
  size (ht_elems hashp)
  = size (ht_elems (without_db db hashp)) + length (status_rows db hashp).
Proof.
  rewrite length_status_rows. unfold without_db. simpl.
  rewrite <- (map_filter_union_complement (λ kd, dbid kd.1 = db) (ht_elems hashp)) at 1.
  rewrite map_size_disj_union by apply map_disjoint_filter_complement.
  lia.
Qed.

(** X5. Running init_fs_model a second time changes nothing. *)
Theorem init_fs_model_idempotent st s t :
  shared st = Some s →
  relation_totals_map st = Some t →
  init_fs_model (init_fs_model st).2 = init_fs_model st.
Proof.
  intros Hs Hm. rewrite (init_fs_model_attached st s t Hs Hm). simpl.
  erewrite init_fs_model_attached by (by destruct st).
  destruct st; simpl in *. unfold with_map. simpl. by rewrite without_db_idemp.
Qed.

(** X6. init_fs_model frees exactly as many elements as get_quota_status
    returned rows for the database just before, and the capacity of the
    table is unchanged. *)
Theorem init_fs_model_frees_rows st s t fcinfo rsinfo tupdesc :
  shared st = Some s →
  relation_totals_map st = Some t →
  materialize_context fcinfo rsinfo tupdesc →
  ∃ t' rows,
    (get_quota_status fcinfo st).1
      = Done (mkReturnSetInfo (allowedModes rsinfo) SFRM_Materialize
                (Some rows) (Some tupdesc))
    ∧ relation_totals_map (init_fs_model st).2 = Some t'
    ∧ ht_max_size t' = ht_max_size t
    ∧ size (ht_elems t) = size (ht_elems t') + length rows.
Proof.
  intros Hs Hm Hctx. rewrite (init_fs_model_attached st s t Hs Hm).
  rewrite (get_quota_status_eval _ _ _ _ Hctx), Hm, Hs.
  exists (without_db (MyDatabaseId st) t), (status_rows (MyDatabaseId st) t).
  split_and!; [done|done|done|]. apply size_without_db.
Qed.

(** X7. After init_fs_model every UpdateQuotaRefreshRelationSize succeeds, also on
    a table that was full, provided the table fitted and the database had at
    least one entry. *)
Theorem Update_succeeds_after_init_fs_model st s t k d relid newquota newtotalsize :
  shared st = Some s →
  relation_totals_map st = Some t →
  fits t →
  ht_elems t !! k = Some d →
  dbid k = MyDatabaseId st →
  (UpdateQuotaRefreshRelationSize relid newquota newtotalsize (init_fs_model st).2).1
  = Done ().
Proof.
  intros Hs Hm Hfits Hk Hdb. rewrite (init_fs_model_attached st s t Hs Hm). simpl.
  erewrite Update_attached by (by destruct st).
  rewrite decide_True; [done|]. right.
  destruct st; simpl in *.
  pose proof (size_without_db MyDatabaseId0 t) as Hsize.
  assert (0 < length (status_rows MyDatabaseId0 t)).
  { rewrite length_status_rows.
    assert (size (filter (λ kd, dbid kd.1 = MyDatabaseId0) (ht_elems t)) ≠ 0); [|lia].
    apply (map_size_ne_0_lookup_2 _ k). rewrite map_lookup_filter, Hk. simpl.
    rewrite option_guard_True by done. eauto. }
  unfold fits in Hfits. simpl in Hsize. lia.
Qed.

(** X8. The two writers change the table and nothing else.  On success the lock
    they took is released and the locks held before are still held; when
    dynahash runs out of shared memory every lock is released.  The database
    OID, the shared pointer and the catalog are never touched, and
    init_fs_model cannot fail on an attached backend. *)
Theorem writers_release_the_lock st s t relid newquota newtotalsize :
  shared st = Some s →
  relation_totals_map st = Some t →
  let r1 := UpdateQuotaRefreshRelationSize relid newquota newtotalsize st in
  let r2 := init_fs_model st in
  (held_lwlocks r1.2 = match r1.1 with Done _ => held_lwlocks st | _ => [] end
   ∧ MyDatabaseId r1.2 = MyDatabaseId st
   ∧ shared r1.2 = shared st
   ∧ syscache_RELOID r1.2 = syscache_RELOID st)
  ∧ (r2.1 = Done ()
     ∧ held_lwlocks r2.2 = held_lwlocks st
     ∧ MyDatabaseId r2.2 = MyDatabaseId st
     ∧ shared r2.2 = shared st
     ∧ syscache_RELOID r2.2 = syscache_RELOID st).
Proof.
  intros Hs Hm. simpl.
  rewrite (Update_attached relid newquota newtotalsize st s t Hs Hm).
  rewrite (init_fs_model_attached st s t Hs Hm). simpl.
  split; [|done]. by case_decide.
Qed.

(** X9. Before the shared segment is attached the two writers dereference the
    NULL [shared] pointer, while the two readers answer: CheckQuota allows
    and the status view is empty. *)
Theorem unattached_writers_fault_readers_answer st relid newquota newtotalsize
    fcinfo rsinfo tupdesc :
  shared st = None →
  relation_totals_map st = None →
  materialize_context fcinfo rsinfo tupdesc →
  UpdateQuotaRefreshRelationSize relid newquota newtotalsize st = (Segfault, st)
  ∧ init_fs_model st = (Segfault, st)
  ∧ CheckQuota relid st = (Done true, st)
  ∧ get_quota_status fcinfo st
    = (Done (mkReturnSetInfo (allowedModes rsinfo) SFRM_Materialize (Some [])
               (Some tupdesc)), st).
Proof.
  intros Hs Hm Hctx. split_and!.
  - unfold UpdateQuotaRefreshRelationSize, mbind, M_bind, shared_lock. by rewrite Hs.
  - unfold init_fs_model, mbind, M_bind, shared_lock. by rewrite Hs.
  - by rewrite CheckQuota_eval, Hm.
  - by rewrite (get_quota_status_eval _ _ _ _ Hctx), Hm.
Qed.

(** X10. Once pg_quota_shmem_startup has run, whatever the globals were before
    and whether the table was created or found, no function of fs_model.c
    dereferences a NULL pointer: init_fs_model and CheckQuota complete,
    UpdateQuotaRefreshRelationSize completes or reports out of shared
    memory, and get_quota_status completes or rejects its call context. *)
Theorem startup_attaches st tranche existing relid newquota newtotalsize fcinfo :
  let st' := (pg_quota_shmem_startup tranche existing st).2 in
  (init_fs_model st').1 = Done ()
  ∧ (∃ b, (CheckQuota relid st').1 = Done b)
  ∧ (UpdateQuotaRefreshRelationSize relid newquota newtotalsize st').1 ≠ Segfault
  ∧ (get_quota_status fcinfo st').1 ≠ Segfault.
Proof.
  simpl.
  set (st' := mkBackend _ _ _ _ _).
  set (t := ShmemInitHash existing MAX_DB_ROLE_ENTRIES MAX_DB_ROLE_ENTRIES).
  assert (Hs : shared st' = Some (mkShared tranche)) by done.
  assert (Hm : relation_totals_map st' = Some t) by done.
  split_and!.
  - by rewrite (init_fs_model_attached st' _ t Hs Hm).
  - rewrite CheckQuota_eval, Hm, Hs. eauto.
  - rewrite (Update_attached _ _ _ st' _ t Hs Hm). by case_decide.
  - destruct (get_quota_status_cases fcinfo) as [(rsinfo & tupdesc & Hctx)|[e He]].
    + by rewrite (get_quota_status_eval _ _ _ _ Hctx), Hm, Hs.
    + by rewrite He.
Qed.

(** X11. get_quota_status completes exactly in a call context that is a
    ReturnSetInfo allowing materialize mode with a composite result type;
    in every other context it raises, before the table is looked at, with
    all locks released and the rest of the backend as it was. *)
Theorem get_quota_status_completes_iff fcinfo st :
  shared st ≠ None ∨ relation_totals_map st = None →
  ((∃ result, (get_quota_status fcinfo st).1 = Done result)
   ↔ ∃ rsinfo tupdesc, materialize_context fcinfo rsinfo tupdesc)
  ∧ ((¬ ∃ rsinfo tupdesc, materialize_context fcinfo rsinfo tupdesc) →
     ∃ e, get_quota_status fcinfo st = (Raised e, with_held [] st)
          ∧ (errcode e = ERRCODE_FEATURE_NOT_SUPPORTED
             ∨ errcode e = ERRCODE_INTERNAL_ERROR)).
Proof.
  intros Hatt. split.
  - split.
    + intros [result Hdone].
      destruct (get_quota_status_cases fcinfo) as [Hctx|[e He]]; [done|].
      by rewrite He in Hdone.
    + intros (rsinfo & tupdesc & Hctx).
      rewrite (get_quota_status_eval _ _ _ _ Hctx). simpl.
      destruct (relation_totals_map st); [|eauto].
      destruct (shared st); [eauto|]. by destruct Hatt.
  - intros Hno. unfold materialize_context in Hno. unfold get_quota_status.
    destruct (resultinfo fcinfo) as [[rsinfo|]|]; [|eexists; split; [done|by left]..].
    case_decide as Hmode; [eexists; split; [done|by left]|].
    destruct (call_result_type fcinfo) as [class tupdesc].
    case_decide as Hclass; [eexists; split; [done|by right]|].
    destruct Hno. exists rsinfo, tupdesc. split_and!; [done..|].
    f_equal. by destruct (decide (class = TYPEFUNC_COMPOSITE)).
Qed.

(** X12. CheckQuota and the status view agree on who is over quota:
    CheckQuota denies a relation exactly when get_quota_status returns a row
    for it whose quota is not null, not negative, and smaller than its
    space_used. *)
Theorem denied_iff_row_over_quota st s t fcinfo rsinfo tupdesc :
  shared st = Some s →
  relation_totals_map st = Some t →
  materialize_context fcinfo rsinfo tupdesc →
  ∃ rows,
    (get_quota_status fcinfo st).1
      = Done (mkReturnSetInfo (allowedModes rsinfo) SFRM_Materialize
                (Some rows) (Some tupdesc))
    ∧ ∀ relid,
        (CheckQuota relid st).1 = Done false
        ↔ ∃ used limit,
            mkTuple [Z.of_N relid; used; limit] [false; false; false] ∈ rows
            ∧ (0 ≤ limit < used)%Z.
Proof.
  intros Hs Hm Hctx. exists (status_rows (MyDatabaseId st) t).
  split; [by rewrite (get_quota_status_eval _ _ _ _ Hctx), Hm, Hs|].
  intros relid. rewrite CheckQuota_eval, Hm, Hs. simpl. split.
  - destruct (hash_find t _) as [e|] eqn:He; simpl; [|done].
    destruct (bool_decide (0 ≤ quota e)%Z) eqn:Hq; simpl; [|done].
    destruct (bool_decide (quota e < totalsize e)%Z) eqn:Ht; simpl; [|done].
    intros _. apply bool_decide_eq_true in Hq, Ht.
    exists (totalsize e), (quota e). split; [|lia].
    apply elem_of_status_rows. exists e.
    pose proof (hash_find_key _ _ _ He) as Hk. rewrite Hk. split_and!; [done..|].
    unfold status_row. rewrite decide_True by lia. by rewrite Hk.
  - intros (used & limit & Hin & Hover).
    apply elem_of_status_rows in Hin as (e & He & Hdb & Hrow).
    unfold status_row in Hrow. case_decide as Hq; [|by inversion Hrow].
    assert (key e = mkKey relid (MyDatabaseId st)) as Hkey.
    { destruct (key e) as [r d]. simpl in *. subst d. f_equal.
      apply (inj Z.of_N). by inversion Hrow. }
    injection Hrow as _ -> ->.
    rewrite <- Hkey, He. simpl.
    rewrite !bool_decide_eq_true_2 by lia. done.
Qed.

(** ** Further properties of the hooks *)

Lemma targets_within_quota_cons db hashp rte rest :
  targets_within_quota db hashp (rte :: rest)
  = if decide (checked_target rte)
    then within_quota (hash_find hashp (mkKey (rte_relid rte) db))
         && targets_within_quota db hashp rest
    else targets_within_quota db hashp rest.
Proof.
  unfold targets_within_quota. rewrite filter_cons. by case_decide.
Qed.

Lemma quota_check_ExecCheckRTPerms_attached st s t rangeTable flag :
  shared st = Some s →
  relation_totals_map st = Some t →
  quota_check_ExecCheckRTPerms rangeTable flag st
  = if targets_within_quota (MyDatabaseId st) t rangeTable
    then (Done true, st)
    else if flag
         then (Raised (mkError ERRCODE_DISK_FULL "table's disk space quota exceeded"),
               with_held [] st)
         else (Done false, st).
Proof.
  intros Hs Hm. induction rangeTable as [|rte rest IH]; [done|].
  rewrite quota_check_ExecCheckRTPerms_cons, targets_within_quota_cons.
  case_decide; [|done].
  rewrite CheckQuota_eval, Hm, Hs. simpl.
  by destruct (within_quota _).
Qed.

(** X13. Called with ereport_on_violation = false, the executor hook returns the
    conjunction of the quota tests of the INSERT targets, read off the table
    entries of the current database, and leaves the backend as it was. *)
Theorem quota_check_ExecCheckRTPerms_conjunction st s t rangeTable :
  shared st = Some s →
  relation_totals_map st = Some t →
  quota_check_ExecCheckRTPerms rangeTable false st
  = (Done (targets_within_quota (MyDatabaseId st) t rangeTable), st).
Proof.
  intros Hs Hm. rewrite (quota_check_ExecCheckRTPerms_attached _ _ _ _ _ Hs Hm).
  by destruct (targets_within_quota _ _ _).
Qed.

(** X14. The flag changes how a denial is delivered, not what is denied: the hook
    allows a range table with ereport_on_violation exactly when it allows it
    without; with the flag it never returns false, and without the flag it
    never raises. *)
Theorem ereport_on_violation_same_decision st rangeTable :
  ((quota_check_ExecCheckRTPerms rangeTable true st).1 = Done true
   ↔ (quota_check_ExecCheckRTPerms rangeTable false st).1 = Done true)
  ∧ (quota_check_ExecCheckRTPerms rangeTable true st).1 ≠ Done false
  ∧ (∀ e, (quota_check_ExecCheckRTPerms rangeTable false st).1 ≠ Raised e).
Proof.
  induction rangeTable as [|rte rest IH]; [by split_and!|].
  rewrite !quota_check_ExecCheckRTPerms_cons.
  case_decide; [|done].
  pose proof (CheckQuota_not_Raised (rte_relid rte) st) as Hnr.
  destruct (CheckQuota (rte_relid rte) st).1 as [[]|e|]; simpl;
    [done| |by destruct (Hnr e)|]; by split_and!.
Qed.

(** X15. The hook stops at the first denied target: on a range table made of two
    parts it gives the verdict of the first part unless that part is
    allowed, and only then looks at the second. *)
Theorem quota_check_ExecCheckRTPerms_app st l1 l2 flag :
  quota_check_ExecCheckRTPerms (l1 ++ l2) flag st
  = match quota_check_ExecCheckRTPerms l1 flag st with
    | (Done true, st') => quota_check_ExecCheckRTPerms l2 flag st'
    | verdict => verdict
    end.
Proof.
  induction l1 as [|rte rest IH]; [done|].
  rewrite <- app_comm_cons, !quota_check_ExecCheckRTPerms_cons.
  case_decide; [|done].
  destruct (CheckQuota (rte_relid rte) st).1 as [[]|e|]; simpl; [done| |done..].
  by destruct flag.
Qed.

Lemma quota_check_SmgrExtend_closed reln forknum blocknum buffer skipFsync st :
  quota_check_SmgrExtend reln forknum blocknum buffer skipFsync st
  = match syscache_RELOID st !! relNode (node (smgr_rnode reln)) with
    | None => (Done (), st)
    | Some reltup =>
        if decide (relowner reltup = InvalidOid) then (Done (), st)
        else match (CheckQuota (relowner reltup) st).1 with
             | Done true => (Done (), st)
             | Done false =>
                 (Raised (mkError ERRCODE_DISK_FULL "user's disk space quota exceeded"),
                  with_held [] st)
             | Raised e => (Raised e, st)
             | Segfault => (Segfault, st)
             end
    end.
Proof.
  destruct (syscache_RELOID st !! relNode (node (smgr_rnode reln))) as [reltup|] eqn:Hc.
  - rewrite (quota_check_SmgrExtend_eval _ _ _ _ _ _ (relowner reltup)); [done|].
    by rewrite get_rel_owner_eval, Hc.
  - rewrite (quota_check_SmgrExtend_eval _ _ _ _ _ _ InvalidOid).
    + by rewrite decide_True.
    + by rewrite get_rel_owner_eval, Hc.
Qed.

(** X16. While the store is not attached both hooks let every write through and
    leave the backend as it was. *)
Theorem hooks_allow_when_unattached st rangeTable flag reln forknum blocknum buffer
    skipFsync :
  relation_totals_map st = None →
  quota_check_ExecCheckRTPerms rangeTable flag st = (Done true, st)
  ∧ quota_check_SmgrExtend reln forknum blocknum buffer skipFsync st = (Done (), st).
Proof.
  intros Hm. split.
  - induction rangeTable as [|rte rest IH]; [done|].
    rewrite quota_check_ExecCheckRTPerms_cons. case_decide; [|done].
    by rewrite CheckQuota_eval, Hm.
  - rewrite quota_check_SmgrExtend_closed.
    destruct (syscache_RELOID st !! _) as [reltup|]; [|done].
    case_decide; [done|]. by rewrite CheckQuota_eval, Hm.
Qed.

(** X17. Neither hook ever changes the table, the database OID, the shared pointer
    or the catalog; the locks held are as before unless the hook raises, and
    then all are released. *)
Theorem hooks_leave_backend st rangeTable flag reln forknum blocknum buffer skipFsync :
  let ra := quota_check_ExecCheckRTPerms rangeTable flag st in
  let rb := quota_check_SmgrExtend reln forknum blocknum buffer skipFsync st in
  ra.2 = match ra.1 with Raised _ => with_held [] st | _ => st end
  ∧ rb.2 = match rb.1 with Raised _ => with_held [] st | _ => st end.
Proof.
  simpl. split.
  - induction rangeTable as [|rte rest IH]; [done|].
    rewrite quota_check_ExecCheckRTPerms_cons. case_decide; [|done].
    pose proof (CheckQuota_not_Raised (rte_relid rte) st) as Hnr.
    destruct (CheckQuota (rte_relid rte) st).1 as [[]|e|]; simpl;
      [done| |by destruct (Hnr e)|done].
    by destruct flag.
  - rewrite quota_check_SmgrExtend_closed.
    destruct (syscache_RELOID st !! _) as [reltup|]; [|done].
    case_decide; [done|].
    pose proof (CheckQuota_not_Raised (relowner reltup) st) as Hnr.
    by destruct (CheckQuota (relowner reltup) st).1 as [[]|e|]; simpl;
      [| |destruct (Hnr e)|].
Qed.

(** X18. The SmgrExtend hook looks the relation up by its file node and then tests
    the table entry keyed by the OID of the owner: the extension is refused
    exactly when the pg_class row is found, names an owner other than
    InvalidOid, and the entry of that owner in the current database has a
    non-negative quota below its totalsize; in every other case the hook
    returns normally. *)
Theorem quota_check_SmgrExtend_refuses_iff st s t reln forknum blocknum buffer skipFsync :
  shared st = Some s →
  relation_totals_map st = Some t →
  let r := quota_check_SmgrExtend reln forknum blocknum buffer skipFsync st in
  (r.1 = Raised (mkError ERRCODE_DISK_FULL "user's disk space quota exceeded")
   ↔ ∃ reltup e,
       syscache_RELOID st !! relNode (node (smgr_rnode reln)) = Some reltup
       ∧ relowner reltup ≠ InvalidOid
       ∧ hash_find t (mkKey (relowner reltup) (MyDatabaseId st)) = Some e
       ∧ (0 ≤ quota e < totalsize e)%Z)
  ∧ (r.1 ≠ Raised (mkError ERRCODE_DISK_FULL "user's disk space quota exceeded") →
     r = (Done (), st)).
Proof.
  intros Hs Hm. simpl. rewrite quota_check_SmgrExtend_closed.
  destruct (syscache_RELOID st !! _) as [reltup|] eqn:Hc.
  2:{ split; [|done]. split; [done|]. by intros (? & ? & ? & _). }
  case_decide as Howner.
  { split; [|done]. split; [done|]. intros (c & ? & [= <-] & ? & _). done. }
  rewrite CheckQuota_eval, Hm, Hs. simpl.
  destruct (hash_find t _) as [e|] eqn:He; simpl.
  2:{ split; [|done]. split; [done|].
      intros (c & ? & [= <-] & _ & Hfind & _). congruence. }
  destruct (bool_decide (0 ≤ quota e)%Z) eqn:Hq;
    destruct (bool_decide (quota e < totalsize e)%Z) eqn:Ht; simpl;
    try apply bool_decide_eq_true in Hq; try apply bool_decide_eq_true in Ht;
    try apply bool_decide_eq_false in Hq; try apply bool_decide_eq_false in Ht.
  - split; [|done]. split; [|done]. intros _. exists reltup, e. split_and!; done || lia.
  - split; [|done]. split; [done|].
    intros (c & e' & [= <-] & _ & Hfind & Hover). simplify_eq. lia.
  - split; [|done]. split; [done|].
    intros (c & e' & [= <-] & _ & Hfind & Hover). simplify_eq. lia.
  - split; [|done]. split; [done|].
    intros (c & e' & [= <-] & _ & Hfind & Hover). simplify_eq. lia.
Qed.

(** X19. What the regression test exercises: once the refresher has written a
    relation's quota and size, an INSERT into that relation is refused by
    the executor hook exactly when the quota is non-negative and below the
    size, and is let through otherwise (a later update with a smaller size
    reopens the relation). *)
Theorem insert_refused_after_update st s t relid newquota newtotalsize perms :
  shared st = Some s →
  relation_totals_map st = Some t →
  has_room t (mkKey relid (MyDatabaseId st)) →
  Z.land perms ACL_INSERT ≠ 0%Z →
  (quota_check_ExecCheckRTPerms [mkRTE RTE_RELATION relid perms] true
     (UpdateQuotaRefreshRelationSize relid newquota newtotalsize st).2).1
  = if decide (0 ≤ newquota < newtotalsize)%Z
    then Raised (mkError ERRCODE_DISK_FULL "table's disk space quota exceeded")
    else Done true.
Proof.
  intros Hs Hm Hroom Hperm.
  rewrite (Update_attached _ _ _ _ _ _ Hs Hm), decide_True by done. cbn [snd].
  erewrite quota_check_ExecCheckRTPerms_attached by (by destruct st).
  rewrite targets_within_quota_cons, decide_True by done.
  destruct st; simpl in *.
  unfold hash_find, updated. simpl. rewrite lookup_insert_eq. simpl.
  case_decide as Hover.
  - rewrite !bool_decide_eq_true_2 by lia. done.
  - destruct (bool_decide (0 ≤ newquota)%Z) eqn:Hq; simpl; [|done].
    apply bool_decide_eq_true in Hq.
    rewrite bool_decide_eq_false_2 by lia. done.
Qed.

(** X20. Installing the hook.  In both variants the installed flag is tested but
    never set: every call of init_quota_enforcement made with the flag unset
    installs the quota hook and saves what the hook variable held, so a
    second call saves the quota hook itself and the hook that was there
    before the first call is no longer recorded. *)
Theorem init_quota_enforcement_twice (ha : ExecutorVariant.hooks) (hb : SmgrVariant.hooks) :
  ExecutorVariant.ExecutorCheckPerms_hook_installed ha = false →
  SmgrVariant.SmgrExtend_hook_installed hb = false →
  let ha1 := ExecutorVariant.init_quota_enforcement ha in
  let ha2 := ExecutorVariant.init_quota_enforcement ha1 in
  let hb1 := SmgrVariant.init_quota_enforcement hb in
  let hb2 := SmgrVariant.init_quota_enforcement hb1 in
  (ha1 = ExecutorVariant.mkHooks (Some quota_hook)
           (ExecutorVariant.ExecutorCheckPerms_hook ha) false
   ∧ ha2 = ExecutorVariant.mkHooks (Some quota_hook) (Some quota_hook) false)
  ∧ (hb1 = SmgrVariant.mkHooks (Some quota_hook) (SmgrVariant.SmgrExtend_hook hb) false
     ∧ hb2 = SmgrVariant.mkHooks (Some quota_hook) (Some quota_hook) false).
Proof.
  intros Ha Hb. simpl.
  unfold ExecutorVariant.init_quota_enforcement, SmgrVariant.init_quota_enforcement.
  destruct ha, hb; simpl in *; subst. done.
Qed.

Lemma targets_within_quota_no_entries db hashp rangeTable :
  (∀ k, dbid k = db → hash_find hashp k = None) →
  targets_within_quota db hashp rangeTable = true.
Proof.
  intros Hnone. induction rangeTable as [|rte rest IH]; [done|].
  rewrite targets_within_quota_cons. case_decide; [|done].
  by rewrite Hnone, IH.
Qed.

(** X21. After init_fs_model the database is open again: CheckQuota allows every
    relation and the executor hook allows every range table, whatever the
    table held before. *)
Theorem init_fs_model_reopens_database st s t :
  shared st = Some s →
  relation_totals_map st = Some t →
  let st' := (init_fs_model st).2 in
  (∀ relid, CheckQuota relid st' = (Done true, st'))
  ∧ (∀ rangeTable flag, quota_check_ExecCheckRTPerms rangeTable flag st' = (Done true, st')).
Proof.
  intros Hs Hm. simpl. rewrite (init_fs_model_attached st s t Hs Hm). cbn [snd].
  set (st' := with_map _ st).
  assert (Hs' : shared st' = Some s) by (by destruct st).
  assert (Hm' : relation_totals_map st' = Some (without_db (MyDatabaseId st) t))
    by (by destruct st).
  assert (Hdb : MyDatabaseId st' = MyDatabaseId st) by (by destruct st).
  assert (Hnone : ∀ k, dbid k = MyDatabaseId st' →
            hash_find (without_db (MyDatabaseId st) t) k = None).
  { intros k Hk. rewrite without_db_lookup, decide_True; [done|congruence]. }
  split.
  - intros relid. by rewrite CheckQuota_eval, Hm', Hs', Hnone.
  - intros rangeTable flag.
    rewrite (quota_check_ExecCheckRTPerms_attached _ _ _ _ _ Hs' Hm').
    by rewrite targets_within_quota_no_entries.
Qed.

Lemma status_rows_same_entries db t1 t2 row :
  (∀ k, dbid k = db → hash_find t1 k = hash_find t2 k) →
  row ∈ status_rows db t1 ↔ row ∈ status_rows db t2.
Proof.
  intros Hsame. rewrite !elem_of_status_rows.
  split; intros (e & He & Hdb & ->); exists e; split_and!; try done.
  - by rewrite <- Hsame.
  - by rewrite Hsame.
Qed.

(** X22. Two backends on one table.  Whatever a backend of one database does
    with UpdateQuotaRefreshRelationSize or init_fs_model, a backend of another
    database that looks at the table afterwards gets the same answers from
    CheckQuota, and get_quota_status returns it the same rows (in some
    order): the rows of its own entries, as they were before.  Equal
    relation OIDs in the two databases do not interfere. *)
Theorem other_database_unaffected st s t other s' relid newquota newtotalsize
    fcinfo rsinfo tupdesc :
  shared st = Some s →
  relation_totals_map st = Some t →
  shared other = Some s' →
  MyDatabaseId other ≠ MyDatabaseId st →
  materialize_context fcinfo rsinfo tupdesc →
  let after_update :=
    relation_totals_map (UpdateQuotaRefreshRelationSize relid newquota newtotalsize st).2 in
  let after_reset := relation_totals_map (init_fs_model st).2 in
  let view rows :=
    Done (mkReturnSetInfo (allowedModes rsinfo) SFRM_Materialize (Some rows) (Some tupdesc)) in
  (∀ r, (CheckQuota r (with_map after_update other)).1
        = (CheckQuota r (with_map (Some t) other)).1)
  ∧ (∀ r, (CheckQuota r (with_map after_reset other)).1
          = (CheckQuota r (with_map (Some t) other)).1)
  ∧ ∃ rows rows1 rows2,
      (get_quota_status fcinfo (with_map (Some t) other)).1 = view rows
      ∧ (get_quota_status fcinfo (with_map after_update other)).1 = view rows1
      ∧ (get_quota_status fcinfo (with_map after_reset other)).1 = view rows2
      ∧ rows1 ≡ₚ rows
      ∧ rows2 ≡ₚ rows
      ∧ (∀ row, row ∈ rows ↔
           ∃ e, hash_find t (key e) = Some e
                ∧ dbid (key e) = MyDatabaseId other
                ∧ row = status_row e).
Proof.
  intros Hs Hm Hs' Hdb Hctx. simpl.
  rewrite (Update_attached _ _ _ _ _ _ Hs Hm), (init_fs_model_attached _ _ _ Hs Hm).
  assert (Hcheck : ∀ t' r,
    (∀ k, dbid k = MyDatabaseId other → hash_find t' k = hash_find t k) →
    (CheckQuota r (with_map (Some t') other)).1
    = (CheckQuota r (with_map (Some t) other)).1).
  { intros t' r Hsame. rewrite !CheckQuota_eval. destruct other; simpl in *.
    by rewrite Hsame. }
  assert (Hview : ∀ t',
    (get_quota_status fcinfo (with_map (Some t') other)).1
    = Done (mkReturnSetInfo (allowedModes rsinfo) SFRM_Materialize
              (Some (status_rows (MyDatabaseId other) t')) (Some tupdesc))).
  { intros t'. rewrite (get_quota_status_eval _ _ _ _ Hctx).
    destruct other; simpl in *. by rewrite Hs'. }
  assert (Hperm : ∀ t',
    (∀ k, dbid k = MyDatabaseId other → hash_find t' k = hash_find t k) →
    status_rows (MyDatabaseId other) t' ≡ₚ status_rows (MyDatabaseId other) t).
  { intros t' Hsame. apply NoDup_Permutation; [apply NoDup_status_rows..|].
    intros row. by apply status_rows_same_entries. }
  assert (Hupd : ∀ k, dbid k = MyDatabaseId other →
    hash_find (updated (mkKey relid (MyDatabaseId st)) newquota newtotalsize t) k
    = hash_find t k).
  { intros k Hk. unfold hash_find, updated. simpl.
    rewrite lookup_insert_ne; [done|]. intros <-. simpl in Hk. congruence. }
  assert (Hres : ∀ k, dbid k = MyDatabaseId other →
    hash_find (without_db (MyDatabaseId st) t) k = hash_find t k).
  { intros k Hk. rewrite without_db_lookup, decide_False; [done|congruence]. }
  assert (Hafter : relation_totals_map
            (if decide (has_room t (mkKey relid (MyDatabaseId st)))
             then (Done (), with_map (Some (updated (mkKey relid (MyDatabaseId st))
                                              newquota newtotalsize t)) st)
             else (Raised (mkError ERRCODE_OUT_OF_MEMORY "out of shared memory"),
                   with_held [] st)).2
          = Some (if decide (has_room t (mkKey relid (MyDatabaseId st)))
                  then updated (mkKey relid (MyDatabaseId st)) newquota newtotalsize t
                  else t)).
  { case_decide; by destruct st. }
  rewrite Hafter. cbn [snd].
  replace (relation_totals_map (with_map (Some (without_db (MyDatabaseId st) t)) st))
    with (Some (without_db (MyDatabaseId st) t)) by (by destruct st).
  split_and!.
  - intros r. apply Hcheck. by case_decide.
  - intros r. by apply Hcheck.
  - eexists _, _, _. split_and!; [apply Hview..| | |].
    + apply Hperm. by case_decide.
    + by apply Hperm.
    + intros row. apply elem_of_status_rows.
Qed.

(** X23. The shape of the status view: the result is materialized with the row
    type of the call, every row has the three columns the SQL declaration
    names, relid and space_used are never null, and there are no more rows
    than the table has entries. *)
Theorem get_quota_status_shape st s t fcinfo rsinfo tupdesc :
  shared st = Some s →
  relation_totals_map st = Some t →
  materialize_context fcinfo rsinfo tupdesc →
  ∃ result rows,
    (get_quota_status fcinfo st).1 = Done result
    ∧ returnMode result = SFRM_Materialize
    ∧ setDesc result = Some tupdesc
    ∧ setResult result = Some rows
    ∧ length rows ≤ size (ht_elems t)
    ∧ (∀ row, row ∈ rows →
         length (values row) = 3
         ∧ length (nulls row) = 3
         ∧ nulls row !! 0 = Some false
         ∧ nulls row !! 1 = Some false).
Proof.
  intros Hs Hm Hctx. rewrite (get_quota_status_eval _ _ _ _ Hctx), Hm, Hs. simpl.
  eexists _, _. split_and!; [done..| |].
  - pose proof (size_without_db (MyDatabaseId st) t). lia.
  - intros row (e & _ & _ & ->)%elem_of_status_rows.
    unfold status_row. by case_decide.
Qed.

(** ** Concrete instances of the further properties *)

Lemma Update_last_write_wins_witness :
  UpdateQuotaRefreshRelationSize 10 2000000 0
    (UpdateQuotaRefreshRelationSize 10 (-1) 5 demo_backend).2
  = UpdateQuotaRefreshRelationSize 10 2000000 0 demo_backend.
Proof.
  exact (Update_last_write_wins demo_backend (mkShared 77) demo_table 10%N
           (-1)%Z 5%Z 2000000%Z 0%Z eq_refl eq_refl).
Defined.

Lemma Update_distinct_commute_witness :
  fits (updated (mkKey 10 5) 1 2 (updated (mkKey 11 5) 3 4 demo_table))
  ∧ UpdateQuotaRefreshRelationSize 11 3 4
      (UpdateQuotaRefreshRelationSize 10 1 2 demo_backend).2
    = UpdateQuotaRefreshRelationSize 10 1 2
        (UpdateQuotaRefreshRelationSize 11 3 4 demo_backend).2.
Proof.
  assert (Hfits : fits (updated (mkKey 10 5) 1 2 (updated (mkKey 11 5) 3 4 demo_table)))
    by (unfold fits; vm_compute; lia).
  assert (Hne : 10%N ≠ 11%N) by discriminate.
  split; [exact Hfits|].
  exact (proj2 (Update_distinct_commute demo_backend (mkShared 77) demo_table
                  10%N 1%Z 2%Z 11%N 3%Z 4%Z eq_refl eq_refl Hne Hfits)).
Defined.

Lemma refresh_all_within_capacity_witness :
  ∃ t',
    refresh_all [(10%N, 2000000%Z, 2100000%Z); (11%N, (-1)%Z, 0%Z)] fresh_backend
    = (Done (), with_map (Some t') fresh_backend)
    ∧ fits t'.
Proof.
  destruct (refresh_all_within_capacity fresh_backend (mkShared 77)
              (mkHTAB ∅ MAX_DB_ROLE_ENTRIES)
              [(10%N, 2000000%Z, 2100000%Z); (11%N, (-1)%Z, 0%Z)]
              eq_refl eq_refl)
    as (t' & Hrun & Hfits & _).
  - vm_compute. lia.
  - exists t'. split; [exact Hrun|exact Hfits].
Defined.

Lemma startup_table_takes_max_entries_witness :
  (refresh_all [(10%N, 2000000%Z, 2100000%Z); (10%N, 2000000%Z, 0%Z)]
     (pg_quota_shmem_startup 77 None (backend_start 5 ∅)).2).1 = Done ().
Proof.
  apply (startup_table_takes_max_entries (backend_start 5 ∅) 77%N
           [(10%N, 2000000%Z, 2100000%Z); (10%N, 2000000%Z, 0%Z)]).
  vm_compute. lia.
Defined.

Lemma init_fs_model_idempotent_witness :
  init_fs_model (init_fs_model demo_backend).2 = init_fs_model demo_backend.
Proof.
  exact (init_fs_model_idempotent demo_backend (mkShared 77) demo_table eq_refl eq_refl).
Defined.

(** Three of the four demo entries belong to database 5: the view shows three
    rows and one element is left. *)
Lemma init_fs_model_frees_rows_witness :
  materialize_context demo_fcinfo (mkReturnSetInfo 3 SFRM_ValuePerCall None None)
    ["relid"; "space_used"; "quota"]
  ∧ ∃ t' rows,
      (get_quota_status demo_fcinfo demo_backend).1
        = Done (mkReturnSetInfo 3 SFRM_Materialize (Some rows)
                  (Some ["relid"; "space_used"; "quota"]))
      ∧ relation_totals_map (init_fs_model demo_backend).2 = Some t'
      ∧ 4 = size (ht_elems t') + length rows.
Proof.
  assert (Hctx : materialize_context demo_fcinfo
                   (mkReturnSetInfo 3 SFRM_ValuePerCall None None)
                   ["relid"; "space_used"; "quota"]).
  { split_and!; [reflexivity| |reflexivity]. vm_compute. discriminate. }
  split; [exact Hctx|].
  destruct (init_fs_model_frees_rows demo_backend (mkShared 77) demo_table demo_fcinfo
              _ _ eq_refl eq_refl Hctx) as (t' & rows & Hview & Hmap & _ & Hsize).
  exists t', rows. split_and!; [exact Hview|exact Hmap|].
  assert (Hfour : size (ht_elems demo_table) = 4) by (vm_compute; reflexivity).
  rewrite Hfour in Hsize. exact Hsize.
Defined.

(** The update of relation 99 that the full demo table refuses goes through
    after init_fs_model. *)
Lemma Update_succeeds_after_init_fs_model_witness :
  fits demo_table
  ∧ ht_elems demo_table !! mkKey 10 5 = Some (2100000, 2000000)%Z
  ∧ (UpdateQuotaRefreshRelationSize 99 1000 10 demo_backend).1
    = Raised (mkError ERRCODE_OUT_OF_MEMORY "out of shared memory")
  ∧ (UpdateQuotaRefreshRelationSize 99 1000 10 (init_fs_model demo_backend).2).1
    = Done ().
Proof.
  assert (Hfits : fits demo_table) by (unfold fits; vm_compute; lia).
  assert (Hk : ht_elems demo_table !! mkKey 10 5 = Some (2100000, 2000000)%Z)
    by (vm_compute; reflexivity).
  split_and!; [exact Hfits|exact Hk|vm_compute; reflexivity|].
  exact (Update_succeeds_after_init_fs_model demo_backend (mkShared 77) demo_table
           (mkKey 10 5) (2100000, 2000000)%Z 99%N 1000%Z 10%Z
           eq_refl eq_refl Hfits Hk eq_refl).
Defined.

Lemma writers_release_the_lock_witness :
  held_lwlocks (UpdateQuotaRefreshRelationSize 10 1 2 demo_backend).2 = []
  ∧ held_lwlocks (init_fs_model demo_backend).2 = [].
Proof.
  pose proof (writers_release_the_lock demo_backend (mkShared 77) demo_table
                10%N 1%Z 2%Z eq_refl eq_refl) as [[Hupd _] [_ [Hreset _]]].
  split; [|exact Hreset].
  rewrite Hupd. vm_compute. reflexivity.
Defined.

Lemma unattached_writers_fault_readers_answer_witness :
  materialize_context demo_fcinfo (mkReturnSetInfo 3 SFRM_ValuePerCall None None)
    ["relid"; "space_used"; "quota"]
  ∧ (UpdateQuotaRefreshRelationSize 10 1 2 (backend_start 5 ∅)).1 = Segfault
  ∧ (CheckQuota 10 (backend_start 5 ∅)).1 = Done true.
Proof.
  assert (Hctx : materialize_context demo_fcinfo
                   (mkReturnSetInfo 3 SFRM_ValuePerCall None None)
                   ["relid"; "space_used"; "quota"]).
  { split_and!; [reflexivity| |reflexivity]. vm_compute. discriminate. }
  pose proof (unattached_writers_fault_readers_answer (backend_start 5 ∅) 10%N 1%Z 2%Z
                demo_fcinfo _ _ eq_refl eq_refl Hctx) as (Hupd & _ & Hcheck & _).
  split_and!; [exact Hctx|by rewrite Hupd|by rewrite Hcheck].
Defined.

(** A call with no resultinfo at all is rejected. *)
Lemma get_quota_status_completes_iff_witness :
  ∃ e,
    get_quota_status (mkFcinfo None (TYPEFUNC_COMPOSITE, [])) demo_backend
    = (Raised e, with_held [] demo_backend)
    ∧ (errcode e = ERRCODE_FEATURE_NOT_SUPPORTED ∨ errcode e = ERRCODE_INTERNAL_ERROR).
Proof.
  assert (Hatt : shared demo_backend ≠ None ∨ relation_totals_map demo_backend = None)
    by (left; discriminate).
  apply (proj2 (get_quota_status_completes_iff
                  (mkFcinfo None (TYPEFUNC_COMPOSITE, [])) demo_backend Hatt)).
  intros (rsinfo & tupdesc & Hres & _). discriminate Hres.
Defined.

Lemma denied_iff_row_over_quota_witness :
  materialize_context demo_fcinfo (mkReturnSetInfo 3 SFRM_ValuePerCall None None)
    ["relid"; "space_used"; "quota"]
  ∧ ∃ rows,
      (get_quota_status demo_fcinfo demo_backend).1
        = Done (mkReturnSetInfo 3 SFRM_Materialize (Some rows)
                  (Some ["relid"; "space_used"; "quota"]))
      ∧ ∃ used limit,
          mkTuple [10%Z; used; limit] [false; false; false] ∈ rows
          ∧ (0 ≤ limit < used)%Z.
Proof.
  assert (Hctx : materialize_context demo_fcinfo
                   (mkReturnSetInfo 3 SFRM_ValuePerCall None None)
                   ["relid"; "space_used"; "quota"]).
  { split_and!; [reflexivity| |reflexivity]. vm_compute. discriminate. }
  split; [exact Hctx|].
  destruct (denied_iff_row_over_quota demo_backend (mkShared 77) demo_table demo_fcinfo
              _ _ eq_refl eq_refl Hctx) as (rows & Hview & Hiff).
  exists rows. split; [exact Hview|].
  apply (proj1 (Hiff 10%N)). vm_compute. reflexivity.
Defined.

Lemma quota_check_ExecCheckRTPerms_conjunction_witness :
  quota_check_ExecCheckRTPerms
    [mkRTE RTE_RELATION 12 1; mkRTE RTE_RELATION 10 1] false demo_backend
  = (Done false, demo_backend).
Proof.
  rewrite (quota_check_ExecCheckRTPerms_conjunction demo_backend (mkShared 77)
             demo_table _ eq_refl eq_refl).
  vm_compute. reflexivity.
Defined.

Lemma hooks_allow_when_unattached_witness :
  quota_check_ExecCheckRTPerms [mkRTE RTE_RELATION 10 1] true (backend_start 5 ∅)
  = (Done true, backend_start 5 ∅).
Proof.
  exact (proj1 (hooks_allow_when_unattached (backend_start 5 ∅)
                  [mkRTE RTE_RELATION 10 1] true
                  (mkSMgrRelation (mkRelFileNodeBackend (mkRelFileNode 1663 5 900)))
                  MAIN_FORKNUM 0%N [] false eq_refl)).
Defined.

(** File node 901 belongs to owner 12, who has no limit. *)
Lemma quota_check_SmgrExtend_refuses_iff_witness :
  quota_check_SmgrExtend
    (mkSMgrRelation (mkRelFileNodeBackend (mkRelFileNode 1663 5 901)))
    MAIN_FORKNUM 0 [] false demo_backend
  = (Done (), demo_backend).
Proof.
  apply (proj2 (quota_check_SmgrExtend_refuses_iff demo_backend (mkShared 77) demo_table
                  (mkSMgrRelation (mkRelFileNodeBackend (mkRelFileNode 1663 5 901)))
                  MAIN_FORKNUM 0%N [] false eq_refl eq_refl)).
  vm_compute. discriminate.
Defined.

Lemma insert_refused_after_update_witness :
  has_room demo_table (mkKey 12 (MyDatabaseId demo_backend))
  ∧ Z.land 3 ACL_INSERT ≠ 0%Z
  ∧ (quota_check_ExecCheckRTPerms [mkRTE RTE_RELATION 12 3] true
       (UpdateQuotaRefreshRelationSize 12 20971520 31457280 demo_backend).2).1
    = Raised (mkError ERRCODE_DISK_FULL "table's disk space quota exceeded").
Proof.
  assert (Hroom : has_room demo_table (mkKey 12 (MyDatabaseId demo_backend))).
  { left. exists (0, -1)%Z. vm_compute. reflexivity. }
  assert (Hperm : Z.land 3 ACL_INSERT ≠ 0%Z) by (vm_compute; discriminate).
  split_and!; [exact Hroom|exact Hperm|].
  rewrite (insert_refused_after_update demo_backend (mkShared 77) demo_table 12%N
             20971520%Z 31457280%Z 3%Z eq_refl eq_refl Hroom Hperm).
  rewrite decide_True by lia. reflexivity.
Defined.

(** Another module's hook 4660 is installed first; after two calls it is
    recorded nowhere. *)
Lemma init_quota_enforcement_twice_witness :
  ExecutorVariant.init_quota_enforcement
    (ExecutorVariant.init_quota_enforcement
       (ExecutorVariant.mkHooks (Some (other_hook 4660)) None false))
  = ExecutorVariant.mkHooks (Some quota_hook) (Some quota_hook) false.
Proof.
  exact (proj2 (proj1 (init_quota_enforcement_twice
                         (ExecutorVariant.mkHooks (Some (other_hook 4660)) None false)
                         (SmgrVariant.mkHooks None None false) eq_refl eq_refl))).
Defined.

Lemma init_fs_model_reopens_database_witness :
  (CheckQuota 10 demo_backend).1 = Done false
  ∧ (CheckQuota 10 (init_fs_model demo_backend).2).1 = Done true.
Proof.
  split; [vm_compute; reflexivity|].
  rewrite (proj1 (init_fs_model_reopens_database demo_backend (mkShared 77) demo_table
                    eq_refl eq_refl) 10%N).
  reflexivity.
Defined.

(** A backend of database 6 on the demo table, while database 5 rewrites
    its own relation 10: relation 10 of database 6 is still shown with its
    4096 bytes. *)
Lemma other_database_unaffected_witness :
  materialize_context demo_fcinfo (mkReturnSetInfo 3 SFRM_ValuePerCall None None)
    ["relid"; "space_used"; "quota"]
  ∧ (CheckQuota 10
       (with_map
          (relation_totals_map (UpdateQuotaRefreshRelationSize 10 1 2 demo_backend).2)
          (mkBackend 6 (Some (mkShared 77)) None [] ∅))).1
    = (CheckQuota 10 (mkBackend 6 (Some (mkShared 77)) (Some demo_table) [] ∅)).1
  ∧ ∃ rows1,
      (get_quota_status demo_fcinfo
         (with_map
            (relation_totals_map (UpdateQuotaRefreshRelationSize 10 1 2 demo_backend).2)
            (mkBackend 6 (Some (mkShared 77)) None [] ∅))).1
      = Done (mkReturnSetInfo 3 SFRM_Materialize (Some rows1)
                (Some ["relid"; "space_used"; "quota"]))
      ∧ mkTuple [10; 4096; 4096]%Z [false; false; false] ∈ rows1.
Proof.
  assert (Hctx : materialize_context demo_fcinfo
                   (mkReturnSetInfo 3 SFRM_ValuePerCall None None)
                   ["relid"; "space_used"; "quota"]).
  { split_and!; [reflexivity| |reflexivity]. vm_compute. discriminate. }
  assert (Hdb : MyDatabaseId (mkBackend 6 (Some (mkShared 77)) None [] ∅)
                ≠ MyDatabaseId demo_backend) by discriminate.
  pose proof (other_database_unaffected demo_backend (mkShared 77) demo_table
                (mkBackend 6 (Some (mkShared 77)) None [] ∅) (mkShared 77)
                10%N 1%Z 2%Z demo_fcinfo _ _ eq_refl eq_refl eq_refl Hdb Hctx)
    as (Hcheck & _ & rows & rows1 & rows2 & _ & Hview1 & _ & Hperm1 & _ & Hrows).
  split_and!; [exact Hctx|exact (Hcheck 10%N)|].
  exists rows1. split; [exact Hview1|].
  rewrite Hperm1. apply Hrows.
  exists (mkEntry (mkKey 10 6) 4096 4096). split_and!.
  - vm_compute. reflexivity.
  - reflexivity.
  - vm_compute. reflexivity.
Defined.

Lemma get_quota_status_shape_witness :
  materialize_context demo_fcinfo (mkReturnSetInfo 3 SFRM_ValuePerCall None None)
    ["relid"; "space_used"; "quota"]
  ∧ ∃ result rows,
      (get_quota_status demo_fcinfo demo_backend).1 = Done result
      ∧ setResult result = Some rows
      ∧ length rows ≤ 4.
Proof.
  assert (Hctx : materialize_context demo_fcinfo
                   (mkReturnSetInfo 3 SFRM_ValuePerCall None None)
                   ["relid"; "space_used"; "quota"]).
  { split_and!; [reflexivity| |reflexivity]. vm_compute. discriminate. }
  split; [exact Hctx|].
  destruct (get_quota_status_shape demo_backend (mkShared 77) demo_table demo_fcinfo
              _ _ eq_refl eq_refl Hctx)
    as (result & rows & Hrun & _ & _ & Hrows & Hlen & _).
  exists result, rows. split_and!; [exact Hrun|exact Hrows|].
  assert (Hfour : size (ht_elems demo_table) = 4) by (vm_compute; reflexivity).
  rewrite Hfour in Hlen. exact Hlen.
Defined.
